(** * DmMruSwitch: the MRU history and the cycle session

    A shallow embedding of the plugin's module-level state and of the
    functions that read and write it ([pushChannelToFront],
    [sanitizeHistory], [beginCycleSession], [stepCycle],
    [endCycleSession], the flux handlers, [start], [stop], the clear
    button and the overlay's page computation), followed by the
    properties of the history list and of the session state machine.

    The module-level [let] variables become the fields of [State]; every
    function of the plugin becomes a function [Host -> ... -> State ->
    State], where [Host] gathers what the plugin reads from the client
    (channel store, selected channel, settings).  Calls into the client
    (navigation, persistence, toasts, overlay) are appended to a trace
    carried by the state.

    The plugin runs on one thread: a handler runs to its end before the
    next signal is handled, so a handler is one function application.
    Flux events caused by a navigation are signals of their own.  The
    arrays held by [mruDmChannelIds] and [cycleSnapshot] are never the
    same object ([sanitizeHistory] returns a new array, [filter] makes
    a new one), so they are modelled as two list values. *)

From Stdlib Require Import ZArith String.
From stdpp Require Import base list gmap strings.

(** ** JavaScript primitives used by the plugin *)

Module Js.

(** [!s] for a value that is a string or [undefined]. *)
Definition falsy (v : option string) : bool :=
  match v with
  | None => true
  | Some s => bool_decide (s = EmptyString)
  end.

(** [arr[i]] for an integer [i]: [undefined] outside [0 .. length-1]. *)
Definition index {A} (arr : list A) (i : Z) : option A :=
  if (i <? 0)%Z then None else arr !! Z.to_nat i.

(** The relative-index clamp of [Array.prototype.slice]. *)
Definition rel_index (len k : Z) : Z :=
  if (k <? 0)%Z then Z.max (len + k) 0 else Z.min k len.

(** [arr.slice(s, e)] for integers [s] and [e]. *)
Definition slice {A} (arr : list A) (s e : Z) : list A :=
  let len := Z.of_nat (length arr) in
  let from := rel_index len s in
  let to := rel_index len e in
  take (Z.to_nat (to - from)) (drop (Z.to_nat from) arr).

(** [a % b] on integers: the remainder has the sign of [a]. *)
Definition rem (a b : Z) : Z := Z.rem a b.

(** [Math.floor(a / b)] on integers with [b > 0]. *)
Definition floor_div (a b : Z) : Z := (a / b)%Z.

End Js.

(** ** The host: channel store, selected channel, settings *)

(** What calling an optional method [ch.m?.()] can do. *)
Inductive CallResult : Type :=
| Absent
| Returns (b : bool)
| Throws.

Record Channel : Type := {
  isDM : CallResult;
  isGroupDM : CallResult
}.

Inductive VisualStyle : Type := VsOverlay | VsToast | VsOff.
Inductive OverlayMode : Type := OmRow | OmCurrent.

(** The sliders stick to their markers, which are integers. *)
Record Settings : Type := {
  visualStyle : VisualStyle;
  overlayMode : OverlayMode;
  overlayRowLength : Z;
  overlayShowAvatars : bool;
  toastDurationMs : Z;
  instantSwitch : bool
}.

Record Host : Type := {
  getChannel : string -> option Channel;      (* ChannelStore.getChannel *)
  hasChannel : string -> bool;                (* ChannelStore.hasChannel *)
  getChannelId : option string;               (* SelectedChannelStore.getChannelId() *)
  store : Settings;                           (* settings.store *)
  IS_MAC : bool
}.

(** ** Module state *)

Definition MAX_HISTORY : nat := 50.

(** What the overlay shows: the cards of the page (identifier, isActive)
    and the page dots. *)
Record Descriptor : Type := {
  pageItems : list (option string * bool);
  currentPage : Z;
  pageCount : Z
}.

(** Calls observed from outside, in the order they happen.
    [CallPushChannelToFront] marks an entry into [pushChannelToFront]. *)
Inductive Effect : Type :=
| CallPushChannelToFront (channelId : string)
| DataStoreSet (ids : list string)
| TransitionToChannel (id : string)
| RenderOverlay (d : Descriptor)
| UnmountOverlay
| ShowCycleToast (id : string)
| ShowClearedToast.

Record State : Type := {
  mruDmChannelIds : list string;
  isCyclingSessionActive : bool;
  suppressMruWhileCycling : bool;
  cycleSnapshot : list string;
  cycleIndex : Z;
  activeToastId : bool;      (* true when the variable holds an id *)
  overlayMounted : bool;     (* true when the overlay key/root is not null *)
  trace : list Effect
}.

Definition initial : State := {|
  mruDmChannelIds := [];
  isCyclingSessionActive := false;
  suppressMruWhileCycling := false;
  cycleSnapshot := [];
  cycleIndex := (-1)%Z;
  activeToastId := false;
  overlayMounted := false;
  trace := []
|}.

Definition set_mru (l : list string) (st : State) : State :=
  {| mruDmChannelIds := l;
     isCyclingSessionActive := isCyclingSessionActive st;
     suppressMruWhileCycling := suppressMruWhileCycling st;
     cycleSnapshot := cycleSnapshot st;
     cycleIndex := cycleIndex st;
     activeToastId := activeToastId st;
     overlayMounted := overlayMounted st;
     trace := trace st |}.

Definition set_flags (active suppress : bool) (st : State) : State :=
  {| mruDmChannelIds := mruDmChannelIds st;
     isCyclingSessionActive := active;
     suppressMruWhileCycling := suppress;
     cycleSnapshot := cycleSnapshot st;
     cycleIndex := cycleIndex st;
     activeToastId := activeToastId st;
     overlayMounted := overlayMounted st;
     trace := trace st |}.

Definition set_snapshot (l : list string) (st : State) : State :=
  {| mruDmChannelIds := mruDmChannelIds st;
     isCyclingSessionActive := isCyclingSessionActive st;
     suppressMruWhileCycling := suppressMruWhileCycling st;
     cycleSnapshot := l;
     cycleIndex := cycleIndex st;
     activeToastId := activeToastId st;
     overlayMounted := overlayMounted st;
     trace := trace st |}.

Definition set_index (i : Z) (st : State) : State :=
  {| mruDmChannelIds := mruDmChannelIds st;
     isCyclingSessionActive := isCyclingSessionActive st;
     suppressMruWhileCycling := suppressMruWhileCycling st;
     cycleSnapshot := cycleSnapshot st;
     cycleIndex := i;
     activeToastId := activeToastId st;
     overlayMounted := overlayMounted st;
     trace := trace st |}.

Definition set_toast (b : bool) (st : State) : State :=
  {| mruDmChannelIds := mruDmChannelIds st;
     isCyclingSessionActive := isCyclingSessionActive st;
     suppressMruWhileCycling := suppressMruWhileCycling st;
     cycleSnapshot := cycleSnapshot st;
     cycleIndex := cycleIndex st;
     activeToastId := b;
     overlayMounted := overlayMounted st;
     trace := trace st |}.

Definition set_overlay (b : bool) (st : State) : State :=
  {| mruDmChannelIds := mruDmChannelIds st;
     isCyclingSessionActive := isCyclingSessionActive st;
     suppressMruWhileCycling := suppressMruWhileCycling st;
     cycleSnapshot := cycleSnapshot st;
     cycleIndex := cycleIndex st;
     activeToastId := activeToastId st;
     overlayMounted := b;
     trace := trace st |}.

Definition emit (e : Effect) (st : State) : State :=
  {| mruDmChannelIds := mruDmChannelIds st;
     isCyclingSessionActive := isCyclingSessionActive st;
     suppressMruWhileCycling := suppressMruWhileCycling st;
     cycleSnapshot := cycleSnapshot st;
     cycleIndex := cycleIndex st;
     activeToastId := activeToastId st;
     overlayMounted := overlayMounted st;
     trace := trace st ++ [e] |}.

(** ** History store *)

(** [Boolean(channel.isDM?.() || channel.isGroupDM?.())] inside the
    [try]: a throwing method gives [false], and [isGroupDM] is only
    called when [isDM] did not return [true]. *)
Definition isDirectMessageChannel (h : Host) (channelId : option string) : bool :=
  if Js.falsy channelId then false
  else match channelId with
       | None => false
       | Some id =>
           match getChannel h id with
           | None => false
           | Some channel =>
               match isDM channel with
               | Throws => false
               | Returns true => true
               | Returns false | Absent =>
                   match isGroupDM channel with
                   | Returns b => b
                   | Absent | Throws => false
                   end
               end
           end
       end.

(** [filter], [unshift], then [length = MAX_HISTORY] when longer. *)
Definition promoted (channelId : string) (ids : list string) : list string :=
  let filtered := filter (λ id, id ≠ channelId) ids in
  let unshifted := channelId :: filtered in
  if decide (MAX_HISTORY < length unshifted) then take MAX_HISTORY unshifted
  else unshifted.

Definition pushChannelToFront (channelId : string) (st : State) : State :=
  let st0 := emit (CallPushChannelToFront channelId) st in
  let st1 := set_mru (promoted channelId (mruDmChannelIds st0)) st0 in
  emit (DataStoreSet (mruDmChannelIds st1)) st1.

(** The [for ... of] loop of [sanitizeHistory], with its two locals. *)
Fixpoint sanitize_loop (h : Host) (ids : list string)
    (seen : gset string) (result : list string) : list string :=
  match ids with
  | [] => result
  | id :: rest =>
      if Js.falsy (Some id) || bool_decide (id ∈ seen) then
        sanitize_loop h rest seen result
      else if negb (hasChannel h id) then sanitize_loop h rest seen result
      else if negb (isDirectMessageChannel h (Some id)) then
        sanitize_loop h rest seen result
      else
        let seen' := {[id]} ∪ seen in
        let result' := result ++ [id] in
        if decide (MAX_HISTORY ≤ length result') then result'
        else sanitize_loop h rest seen' result'
  end.

Definition sanitizeHistory (h : Host) (ids : list string) : list string :=
  sanitize_loop h ids ∅ [].

(** ** Overlay: page computation of [OverlayContent] / [renderOverlay] *)

Definition maxCount (s : Settings) : Z :=
  Z.max 3 (Z.min 7 (overlayRowLength s)).

Definition pageSize (s : Settings) : Z :=
  match overlayMode s with OmCurrent => 1%Z | OmRow => maxCount s end.

Definition totalSlots (s : Settings) : Z :=
  match overlayMode s with OmCurrent => 1%Z | OmRow => (pageSize s * 2)%Z end.

Definition visibleList (s : Settings) (snapshot : list string) (idx : Z)
    : list (option string) :=
  match overlayMode s with
  | OmCurrent => [Js.index snapshot idx]
  | OmRow => Some <$> Js.slice snapshot 0 (totalSlots s)
  end.

Definition overlayPageCount (s : Settings) (snapshot : list string) (idx : Z) : Z :=
  match overlayMode s with
  | OmCurrent => 1%Z
  | OmRow =>
      if decide (pageSize s < Z.of_nat (length (visibleList s snapshot idx)))%Z
      then 2%Z else 1%Z
  end.

Definition overlayCurrentPage (s : Settings) (snapshot : list string) (idx : Z) : Z :=
  match overlayMode s with
  | OmCurrent => 0%Z
  | OmRow =>
      Z.min (overlayPageCount s snapshot idx - 1)
            (Js.floor_div (if decide (0 ≤ idx)%Z then idx else 0%Z) (pageSize s))
  end.

Definition overlayPageItems (s : Settings) (snapshot : list string) (idx : Z)
    : list (option string) :=
  let visible := visibleList s snapshot idx in
  let start := (overlayCurrentPage s snapshot idx * pageSize s)%Z in
  let stop := Z.min (start + pageSize s) (Z.of_nat (length visible)) in
  Js.slice visible start stop.

Definition OverlayContent (s : Settings) (snapshot : list string) (idx : Z)
    : Descriptor :=
  {| pageItems :=
       (λ id, (id, bool_decide (id = Js.index snapshot idx)))
         <$> overlayPageItems s snapshot idx;
     currentPage := overlayCurrentPage s snapshot idx;
     pageCount := overlayPageCount s snapshot idx |}.

Definition renderOverlay (h : Host) (st : State) : State :=
  match visualStyle (store h) with
  | VsOverlay =>
      if negb (isCyclingSessionActive st) then st
      else
        emit (RenderOverlay
                (OverlayContent (store h) (cycleSnapshot st) (cycleIndex st)))
             (set_overlay true st)
  | _ => st
  end.

Definition unmountOverlay (st : State) : State :=
  if negb (overlayMounted st) then st
  else set_overlay false (emit UnmountOverlay st).

Definition showCycleToast (h : Host) (st : State) : State :=
  match visualStyle (store h) with
  | VsToast =>
      match Js.index (cycleSnapshot st) (cycleIndex st) with
      | Some id =>
          if Js.falsy (Some id) then st
          else emit (ShowCycleToast id) (set_toast true st)
      | None => st
      end
  | _ => st
  end.

(** ** Cycle session *)

Inductive Direction : Type := Forward | Backward.

Definition delta (d : Direction) : Z :=
  match d with Forward => 1%Z | Backward => (-1)%Z end.

Definition beginCycleSession (h : Host) (st : State) : State :=
  if isCyclingSessionActive st then st
  else
    let st1 := set_flags true true st in
    let currentId := getChannelId h in
    let anchor :=
      if isDirectMessageChannel h currentId
      then match currentId with Some c => [c] | None => [] end
      else [] in
    let st2 := set_snapshot
                 (sanitizeHistory h (anchor ++ mruDmChannelIds st1)) st1 in
    set_index 0%Z st2.

Definition stepCycle (h : Host) (direction : Direction) (st : State) : State :=
  if negb (isCyclingSessionActive st)
     || bool_decide (length (cycleSnapshot st) = 0) then st
  else
    let total := Z.of_nat (length (cycleSnapshot st)) in
    if decide (total ≤ 1)%Z then st
    else
      let st1 :=
        set_index (Js.rem (cycleIndex st + delta direction + total) total) st in
      let targetId := Js.index (cycleSnapshot st1) (cycleIndex st1) in
      match targetId with
      | Some target =>
          if Js.falsy targetId || negb (hasChannel h target) then st1
          else
            let st2 :=
              if instantSwitch (store h)
              then emit (TransitionToChannel target) st1 else st1 in
            match visualStyle (store h) with
            | VsOverlay => renderOverlay h st2
            | VsToast => showCycleToast h st2
            | VsOff => st2
            end
      | None => st1
      end.

Definition endCycleSession (h : Host) (st : State) : State :=
  if negb (isCyclingSessionActive st) then st
  else
    let st1 := set_flags false false st in
    let st2 :=
      if decide (0 ≤ cycleIndex st1
                 ∧ cycleIndex st1 < Z.of_nat (length (cycleSnapshot st1)))%Z
      then
        let selected := Js.index (cycleSnapshot st1) (cycleIndex st1) in
        match selected with
        | Some sel =>
            if Js.falsy selected then st1
            else
              let st1' :=
                if negb (instantSwitch (store h))
                then emit (TransitionToChannel sel) st1 else st1 in
              pushChannelToFront sel st1'
        | None => st1
        end
      else st1 in
    let st3 := set_toast false (set_index (-1)%Z (set_snapshot [] st2)) in
    match visualStyle (store h) with
    | VsOverlay => unmountOverlay st3
    | _ => st3
    end.

(** ** Keyboard handlers *)

Record KeyboardEvent : Type := {
  key : string;
  ctrlKey : bool;
  metaKey : bool;
  shiftKey : bool
}.

Definition onKeyDown (h : Host) (e : KeyboardEvent) (st : State) : State :=
  let hasCtrl := ctrlKey e || (IS_MAC h && metaKey e) in
  if negb hasCtrl then st
  else if bool_decide (key e = "Tab"%string) then
    let st1 := if negb (isCyclingSessionActive st)
               then beginCycleSession h st else st in
    stepCycle h (if shiftKey e then Backward else Forward) st1
  else st.

Definition onKeyUp (h : Host) (e : KeyboardEvent) (st : State) : State :=
  if bool_decide (key e = "Control"%string)
     || (IS_MAC h && bool_decide (key e = "Meta"%string)) then
    let stillHeld := ctrlKey e || metaKey e in
    if negb stillHeld then endCycleSession h st else st
  else st.

(** ** Flux handlers, plugin lifecycle, the clear button *)

Definition GUILD_SELECT (h : Host) (guildId : option string) (st : State) : State :=
  if negb (isCyclingSessionActive st) then st
  else if Js.falsy guildId then st
  else
    match Js.index (cycleSnapshot st) (cycleIndex st) with
    | Some targetId =>
        if Js.falsy (Some targetId) then st
        else emit (TransitionToChannel targetId) st
    | None => st
    end.

Definition CHANNEL_SELECT (h : Host) (channelId : option string) (st : State) : State :=
  if suppressMruWhileCycling st then st
  else match channelId with
       | None => st
       | Some c =>
           if Js.falsy channelId then st
           else if negb (isDirectMessageChannel h channelId) then st
           else pushChannelToFront c st
       end.

(** [saved] is [None] when the stored value is not an array. *)
Definition start (h : Host) (saved : option (list string)) (st : State) : State :=
  let st1 :=
    set_mru (match saved with
             | Some ids => sanitizeHistory h ids
             | None => []
             end) st in
  match getChannelId h with
  | Some current =>
      if isDirectMessageChannel h (Some current)
      then pushChannelToFront current st1 else st1
  | None => st1
  end.

Definition stop (h : Host) (st : State) : State :=
  let st1 :=
    set_toast false
      (set_index (-1)%Z (set_snapshot [] (set_flags false false st))) in
  match visualStyle (store h) with
  | VsOverlay => unmountOverlay st1
  | _ => st1
  end.

(** The [onClick] of the clear button. *)
Definition clearMru (st : State) : State :=
  emit ShowClearedToast
    (emit (DataStoreSet [])
       (set_index (-1)%Z (set_snapshot [] (set_mru [] st)))).

(** ** Signals delivered to the plugin *)

Inductive Signal : Type :=
| SigBegin
| SigStep (d : Direction)
| SigEnd
| SigKeyDown (e : KeyboardEvent)
| SigKeyUp (e : KeyboardEvent)
| SigChannelSelect (channelId : option string)
| SigGuildSelect (guildId : option string)
| SigStart (saved : option (list string))
| SigStop
| SigClear.

Definition handle (h : Host) (sig : Signal) (st : State) : State :=
  match sig with
  | SigBegin => beginCycleSession h st
  | SigStep d => stepCycle h d st
  | SigEnd => endCycleSession h st
  | SigKeyDown e => onKeyDown h e st
  | SigKeyUp e => onKeyUp h e st
  | SigChannelSelect c => CHANNEL_SELECT h c st
  | SigGuildSelect g => GUILD_SELECT h g st
  | SigStart saved => start h saved st
  | SigStop => stop h st
  | SigClear => clearMru st
  end.

(** Signals are handled one after the other, each under the host as it
    is when the signal arrives. *)
Definition run (sigs : list (Host * Signal)) (st : State) : State :=
  foldl (λ s hs, handle hs.1 hs.2 s) st sigs.

(** The identifiers [pushChannelToFront] was called with, oldest first. *)
Definition promotions (t : list Effect) : list string :=
  omap (λ e, match e with
             | CallPushChannelToFront c => Some c
             | _ => None
             end) t.

(** ** Vocabulary of the properties *)

(** A sequence of promote calls, first to last. *)
Definition promote_all (cs : list string) (st : State) : State :=
  foldl (λ s c, pushChannelToFront c s) st cs.

(** A sequence of steps, each under its own host. *)
Definition step_all (steps : list (Host * Direction)) (st : State) : State :=
  foldl (λ s hd, stepCycle hd.1 hd.2 s) st steps.

(** The two session flags move together. *)
Definition flags_agree (st : State) : Prop :=
  suppressMruWhileCycling st = isCyclingSessionActive st.

(** What [sanitizeHistory] asks of an identifier it keeps. *)
Definition keeps (h : Host) (id : string) : Prop :=
  id ≠ EmptyString
  ∧ hasChannel h id = true
  ∧ isDirectMessageChannel h (Some id) = true.

(** Position of the first occurrence of [x] in [l]. *)
Fixpoint first_index (x : string) (l : list string) : option nat :=
  match l with
  | [] => None
  | y :: l' => if decide (y = x) then Some 0 else S <$> first_index x l'
  end.

(** [out] lists some identifiers of [ids] in the order of their first
    occurrences in [ids]. *)
Definition first_occurrence_order (out ids : list string) : Prop :=
  ∀ i j a b, i < j → out !! i = Some a → out !! j = Some b →
    ∃ p q, first_index a ids = Some p ∧ first_index b ids = Some q ∧ p < q.


(** *** Row pagination as the specification words it

    [pageSize] is the row length clamped to 3..7; the working list is
    the first [min (2 * pageSize) |snapshot|] entries; there are two
    pages when the working list exceeds one page; the current page is
    [min (pageCount - 1) (cursor / pageSize)]; the window is the slice
    from [currentPage * pageSize] to
    [min ((currentPage + 1) * pageSize) |workingList|]. *)
Module RowSpec.

Definition pageSize (rowLength : Z) : nat :=
  Z.to_nat (Z.max 3 (Z.min 7 rowLength)).

Definition workingList (snapshot : list string) (rowLength : Z) : list string :=
  take (Nat.min (2 * pageSize rowLength) (length snapshot)) snapshot.

Definition pageCount (snapshot : list string) (rowLength : Z) : nat :=
  if decide (pageSize rowLength < length (workingList snapshot rowLength))
  then 2 else 1.

Definition currentPage (snapshot : list string) (cursor : nat) (rowLength : Z) : nat :=
  Nat.min (pageCount snapshot rowLength - 1) (cursor / pageSize rowLength).

Definition window_start (snapshot : list string) (cursor : nat) (rowLength : Z) : nat :=
  currentPage snapshot cursor rowLength * pageSize rowLength.

Definition window_stop (snapshot : list string) (cursor : nat) (rowLength : Z) : nat :=
  Nat.min ((currentPage snapshot cursor rowLength + 1) * pageSize rowLength)
          (length (workingList snapshot rowLength)).

(** The entries at the indices [window_start, window_stop). *)
Definition window (snapshot : list string) (cursor : nat) (rowLength : Z) : list string :=
  let a := window_start snapshot cursor rowLength in
  let b := window_stop snapshot cursor rowLength in
  take (b - a) (drop a (workingList snapshot rowLength)).

End RowSpec.

(** *** Hosts and states of the worked scenarios *)

Definition dm : Channel := {| isDM := Returns true; isGroupDM := Returns false |}.

Definition defaults : Settings := {|
  visualStyle := VsOverlay;
  overlayMode := OmRow;
  overlayRowLength := 5;
  overlayShowAvatars := true;
  toastDurationMs := 600;
  instantSwitch := true
|}.

Definition on_release : Settings := {|
  visualStyle := VsOverlay;
  overlayMode := OmRow;
  overlayRowLength := 5;
  overlayShowAvatars := true;
  toastDurationMs := 600;
  instantSwitch := false
|}.

(** Every non-empty identifier is a live direct conversation. *)
Definition all_dms (current : option string) (s : Settings) : Host := {|
  getChannel := λ _, Some dm;
  hasChannel := λ _, true;
  getChannelId := current;
  store := s;
  IS_MAC := false
|}.

(** No conversation is selected and none resolves. *)
Definition no_dms (s : Settings) : Host := {|
  getChannel := λ _, None;
  hasChannel := λ _, false;
  getChannelId := None;
  store := s;
  IS_MAC := false
|}.

Definition with_history (l : list string) : State := set_mru l initial.

(** A step moves the cursor exactly when the session is active and the
    snapshot has at least two entries. *)
Definition step_moves (st : State) : bool :=
  isCyclingSessionActive st
  && bool_decide (2 ≤ length (cycleSnapshot st)).

(** The identifier [endCycleSession] commits: the snapshot entry under
    the cursor, when there is one and it is not the empty string. *)
Definition selected (st : State) : option string :=
  match Js.index (cycleSnapshot st) (cycleIndex st) with
  | Some sel => if Js.falsy (Some sel) then None else Some sel
  | None => None
  end.


(** The whole gesture: begin, the signals in between, end. *)
Definition gesture (hb : Host) (mid : list (Host * Signal)) (he : Host)
    : list (Host * Signal) :=
  (hb, SigBegin) :: mid ++ [(he, SigEnd)].

(** ** Vocabulary of the further properties *)

(** The three tests an identifier passes to be kept by
    [sanitizeHistory], as one boolean. *)
Definition eligible (h : Host) (id : string) : bool :=
  negb (Js.falsy (Some id))
  && hasChannel h id
  && isDirectMessageChannel h (Some id).

(** Keeps the first occurrence of every entry. *)
Fixpoint dedup_first (l : list string) : list string :=
  match l with
  | [] => []
  | x :: l' => x :: filter (λ y, y ≠ x) (dedup_first l')
  end.

(** The history list has no duplicate, at most [MAX_HISTORY] entries
    and no empty identifier. *)
Definition history_ok (st : State) : Prop :=
  NoDup (mruDmChannelIds st)
  ∧ length (mruDmChannelIds st) ≤ MAX_HISTORY
  ∧ Forall (λ id, id ≠ EmptyString) (mruDmChannelIds st).

(** The snapshot has no duplicate, at most [MAX_HISTORY] entries and no
    empty identifier; in an active session the cursor is on an entry of
    the snapshot, unless the snapshot is empty (cursor 0 after begin,
    sentinel after a clear); in an idle session the snapshot is empty
    and the cursor is the sentinel. *)
Definition session_ok (st : State) : Prop :=
  NoDup (cycleSnapshot st)
  ∧ length (cycleSnapshot st) ≤ MAX_HISTORY
  ∧ Forall (λ id, id ≠ EmptyString) (cycleSnapshot st)
  ∧ if isCyclingSessionActive st
    then (0 ≤ cycleIndex st < Z.of_nat (length (cycleSnapshot st)))%Z
         ∨ (cycleSnapshot st = []
            ∧ (cycleIndex st = 0%Z ∨ cycleIndex st = (-1)%Z))
    else cycleSnapshot st = [] ∧ cycleIndex st = (-1)%Z.

(** The conversations [ChannelRouter.transitionToChannel] was called
    with, oldest first. *)
Definition navigations (t : list Effect) : list string :=
  omap (λ e, match e with
             | TransitionToChannel c => Some c
             | _ => None
             end) t.

(** The lists [DataStore.set] was called with, oldest first. *)
Definition saves (t : list Effect) : list (list string) :=
  omap (λ e, match e with
             | DataStoreSet ids => Some ids
             | _ => None
             end) t.

(** The store holds the history list: the last list written is the
    current one, and nothing was written only if the list is empty. *)
Definition persisted_ok (st : State) : Prop :=
  match last (saves (trace st)) with
  | Some ids => ids = mruDmChannelIds st
  | None => mruDmChannelIds st = []
  end.

(** A handler either leaves the history list and the writes alone, or
    ends its writes with the new history list. *)
Definition persist_step (st st' : State) : Prop :=
  (mruDmChannelIds st' = mruDmChannelIds st
   ∧ saves (trace st') = saves (trace st))
  ∨ saves (trace st') = saves (trace st) ++ [mruDmChannelIds st'].

Definition not_start (sig : Signal) : Prop :=
  match sig with SigStart _ => False | _ => True end.

(** * Properties *)

(** ** Projections through the state updates *)

Ltac unfold_updates :=
  unfold pushChannelToFront, unmountOverlay, renderOverlay, showCycleToast,
    set_mru, set_flags, set_snapshot, set_index, set_toast, set_overlay, emit
    in *.

Lemma promotions_app t1 t2 :
  promotions (t1 ++ t2) = promotions t1 ++ promotions t2.
Proof. unfold promotions. apply omap_app. Qed.

(** ** [pushChannelToFront] *)

Section Promote.

Variable channelId : string.

Lemma filter_eq_of_all_ne (l : list string) :
  Forall (λ x, x ≠ channelId) l → filter (λ x, x = channelId) l = [].
Proof.
  induction 1 as [|y l Hy _ IH]; [done|].
  by rewrite filter_cons_False.
Qed.

Lemma filtered_all_ne (l : list string) :
  Forall (λ x, x ≠ channelId) (filter (λ id, id ≠ channelId) l).
Proof.
  apply Forall_forall. intros x Hx.
  by apply list_elem_of_filter in Hx as [Hne _].
Qed.

Lemma promoted_length (l : list string) :
  length (promoted channelId l) ≤ MAX_HISTORY.
Proof.
  unfold promoted. case_decide; [rewrite length_take|]; lia.
Qed.

Lemma promoted_head (l : list string) :
  head (promoted channelId l) = Some channelId.
Proof. unfold promoted. by case_decide. Qed.

Lemma promoted_once (l : list string) :
  length (filter (λ x, x = channelId) (promoted channelId l)) = 1.
Proof.
  pose proof (filtered_all_ne l) as Hne.
  unfold promoted. case_decide.
  - change (take MAX_HISTORY (channelId :: ?t)) with (channelId :: take 49 t).
    rewrite filter_cons_True by done.
    rewrite filter_eq_of_all_ne; [done|]. by apply Forall_take.
  - rewrite filter_cons_True by done.
    by rewrite filter_eq_of_all_ne.
Qed.

Lemma pushChannelToFront_mru (st : State) :
  mruDmChannelIds (pushChannelToFront channelId st)
  = promoted channelId (mruDmChannelIds st).
Proof. reflexivity. Qed.

Lemma pushChannelToFront_promotions (st : State) :
  promotions (trace (pushChannelToFront channelId st))
  = promotions (trace st) ++ [channelId].
Proof.
  unfold_updates. simpl. by rewrite !promotions_app, app_nil_r.
Qed.

End Promote.

Lemma promote_all_snoc (cs : list string) (c : string) (st : State) :
  promote_all (cs ++ [c]) st = pushChannelToFront c (promote_all cs st).
Proof. unfold promote_all. by rewrite foldl_snoc. Qed.

(** C6. After any sequence of promote calls on a history list within
    the bound, the list has at most [MAX_HISTORY] entries; and right
    after each promote of the sequence the promoted identifier is the
    first entry of the list and occurs in it exactly once. *)
Theorem promote_sequence_bounded (st : State) (cs : list string) :
  length (mruDmChannelIds st) ≤ MAX_HISTORY →
  length (mruDmChannelIds (promote_all cs st)) ≤ MAX_HISTORY
  ∧ ∀ pre c post, cs = pre ++ c :: post →
      let l := mruDmChannelIds (promote_all (pre ++ [c]) st) in
      length l ≤ MAX_HISTORY
      ∧ head l = Some c
      ∧ length (filter (λ x, x = c) l) = 1.
Proof.
  intros Hbound. split.
  - destruct cs as [|c cs _] using rev_ind; [exact Hbound|].
    rewrite promote_all_snoc, pushChannelToFront_mru.
    apply promoted_length.
  - intros pre c post _. cbv zeta.
    rewrite promote_all_snoc, pushChannelToFront_mru.
    split; [apply promoted_length|].
    split; [apply promoted_head | apply promoted_once].
Qed.

Lemma promote_sequence_bounded_witness :
  let st := with_history ["B"; "C"]%string in
  let cs := ["A"; "B"; "A"]%string in
  length (mruDmChannelIds (promote_all cs st)) ≤ MAX_HISTORY
  ∧ ∀ pre c post, cs = pre ++ c :: post →
      let l := mruDmChannelIds (promote_all (pre ++ [c]) st) in
      length l ≤ MAX_HISTORY
      ∧ head l = Some c
      ∧ length (filter (λ x, x = c) l) = 1.
Proof.
  apply (promote_sequence_bounded (with_history ["B"; "C"]%string)
           ["A"; "B"; "A"]%string).
  vm_compute. lia.
Defined.

(** ** Frame of the session operations *)

(** Splits on every test the goal still branches on. *)
Ltac split_tests :=
  repeat first
    [ progress simpl
    | case_decide
    | case_bool_decide
    | case_match ].

Lemma stepCycle_frame (h : Host) (d : Direction) (st : State) :
  let st' := stepCycle h d st in
  mruDmChannelIds st' = mruDmChannelIds st
  ∧ isCyclingSessionActive st' = isCyclingSessionActive st
  ∧ suppressMruWhileCycling st' = suppressMruWhileCycling st
  ∧ cycleSnapshot st' = cycleSnapshot st
  ∧ promotions (trace st') = promotions (trace st).
Proof.
  cbv zeta. unfold stepCycle. unfold_updates.
  split_tests; rewrite ?promotions_app, ?app_nil_r; auto.
Qed.

Lemma stepCycle_index (h : Host) (d : Direction) (st : State) :
  cycleIndex (stepCycle h d st)
  = if step_moves st
    then Js.rem (cycleIndex st + delta d
                 + Z.of_nat (length (cycleSnapshot st)))
                (Z.of_nat (length (cycleSnapshot st)))
    else cycleIndex st.
Proof.
  unfold stepCycle, step_moves. unfold_updates.
  destruct (isCyclingSessionActive st); simpl; [|done].
  split_tests; try reflexivity; lia.
Qed.

Lemma stepCycle_idle (h : Host) (d : Direction) (st : State) :
  step_moves st = false → stepCycle h d st = st.
Proof.
  unfold stepCycle, step_moves.
  destruct (isCyclingSessionActive st); simpl; [|done].
  intros Hlen. case_bool_decide; [done|].
  case_bool_decide; simpl; [done|]. case_decide; [done|lia].
Qed.

(** ** Wrap-around of the cursor *)

Lemma stepCycle_index_mod (h : Host) (d : Direction) (st : State) :
  isCyclingSessionActive st = true →
  2 ≤ length (cycleSnapshot st) →
  (0 ≤ cycleIndex st < Z.of_nat (length (cycleSnapshot st)))%Z →
  cycleIndex (stepCycle h d st)
  = ((cycleIndex st + delta d + Z.of_nat (length (cycleSnapshot st)))
       `mod` Z.of_nat (length (cycleSnapshot st)))%Z.
Proof.
  intros Hact Hlen Hidx. rewrite stepCycle_index. unfold step_moves.
  rewrite Hact, bool_decide_true by done. simpl.
  unfold Js.rem. apply Z.rem_mod_nonneg; destruct d; simpl; lia.
Qed.

Lemma forward_steps (hs : list Host) (st : State) :
  isCyclingSessionActive st = true →
  2 ≤ length (cycleSnapshot st) →
  (0 ≤ cycleIndex st < Z.of_nat (length (cycleSnapshot st)))%Z →
  cycleIndex (step_all ((λ h, (h, Forward)) <$> hs) st)
  = ((cycleIndex st + Z.of_nat (length hs))
       `mod` Z.of_nat (length (cycleSnapshot st)))%Z.
Proof.
  revert st. induction hs as [|h hs IH]; intros st Hact Hlen Hidx.
  - simpl. rewrite Z.add_0_r. symmetry. by apply Z.mod_small.
  - change (step_all ((λ h, (h, Forward)) <$> h :: hs) st)
      with (step_all ((λ h, (h, Forward)) <$> hs) (stepCycle h Forward st)).
    destruct (stepCycle_frame h Forward st) as (_ & Ha & _ & Hs & _).
    pose proof (stepCycle_index_mod h Forward st Hact Hlen Hidx) as Hi.
    rewrite IH; rewrite ?Ha, ?Hs, ?Hi; try done.
    + simpl delta. rewrite length_cons, Nat2Z.inj_succ.
      set (n := Z.of_nat (length (cycleSnapshot st))).
      rewrite Zplus_mod_idemp_l.
      replace (cycleIndex st + 1 + n + Z.of_nat (length hs))%Z
        with (cycleIndex st + Z.succ (Z.of_nat (length hs)) + 1 * n)%Z by lia.
      apply Z_mod_plus_full.
    + apply Z.mod_pos_bound. lia.
Qed.

(** C5. In an active session whose snapshot has [n ≥ 2] entries and
    whose cursor is 0, [n] forward steps bring the cursor back to 0 and
    one backward step puts it on [n - 1]; from any cursor [c] of the
    snapshot a step puts it on [(c + delta + n) mod n]. *)
Theorem wraparound (st : State) (n : nat) :
  isCyclingSessionActive st = true →
  length (cycleSnapshot st) = n →
  2 ≤ n →
  cycleIndex st = 0%Z →
  (∀ hs : list Host, length hs = n →
     cycleIndex (step_all ((λ h, (h, Forward)) <$> hs) st) = 0%Z)
  ∧ (∀ h, cycleIndex (stepCycle h Backward st) = (Z.of_nat n - 1)%Z)
  ∧ (∀ h d c, (0 ≤ c < Z.of_nat n)%Z →
       cycleIndex (stepCycle h d (set_index c st))
       = ((c + delta d + Z.of_nat n) `mod` Z.of_nat n)%Z).
Proof.
  intros Hact Hn Hge H0. split; [|split].
  - intros hs Hhs. rewrite forward_steps; rewrite ?Hn, ?H0; try lia; try done.
    rewrite Hhs, Z.add_0_l. apply Z_mod_same_full.
  - intros h. rewrite stepCycle_index_mod; rewrite ?Hn, ?H0; try lia; try done.
    simpl delta. replace (0 + -1 + Z.of_nat n)%Z with (Z.of_nat n - 1)%Z by lia.
    apply Z.mod_small. lia.
  - intros h d c Hc.
    rewrite stepCycle_index_mod; simpl; rewrite ?Hn; try lia; done.
Qed.

Lemma wraparound_witness :
  let st := set_index 0 (set_snapshot ["A"; "B"; "C"]%string
                           (set_flags true true initial)) in
  (∀ hs : list Host, length hs = 3 →
     cycleIndex (step_all ((λ h, (h, Forward)) <$> hs) st) = 0%Z)
  ∧ (∀ h, cycleIndex (stepCycle h Backward st) = (Z.of_nat 3 - 1)%Z)
  ∧ (∀ h d c, (0 ≤ c < Z.of_nat 3)%Z →
       cycleIndex (stepCycle h d (set_index c st))
       = ((c + delta d + Z.of_nat 3) `mod` Z.of_nat 3)%Z).
Proof.
  apply (wraparound
           (set_index 0 (set_snapshot ["A"; "B"; "C"]%string
                           (set_flags true true initial))) 3);
    [reflexivity | reflexivity | lia | reflexivity].
Defined.

(** ** [sanitizeHistory] *)

Lemma first_index_cons_ne (x y : string) (l : list string) :
  y ≠ x → first_index x (y :: l) = S <$> first_index x l.
Proof. intros Hne. simpl. by rewrite decide_False. Qed.

Lemma first_index_elem (x : string) (l : list string) :
  x ∈ l → ∃ p, first_index x l = Some p.
Proof.
  induction l as [|y l IH]; intros Hx; [by apply elem_of_nil in Hx|].
  simpl. case_decide; [by eexists|].
  apply elem_of_cons in Hx as [->|Hx]; [done|].
  destruct (IH Hx) as [p ->]. by eexists.
Qed.

Lemma order_skip (ext : list string) (id : string) (rest : list string) :
  (∀ x, x ∈ ext → x ≠ id) →
  first_occurrence_order ext rest →
  first_occurrence_order ext (id :: rest).
Proof.
  intros Hne Hord i j a b Hij Ha Hb.
  destruct (Hord i j a b Hij Ha Hb) as (p & q & Hp & Hq & Hpq).
  assert (Ha' : a ≠ id) by (apply Hne; by eapply list_elem_of_lookup_2).
  assert (Hb' : b ≠ id) by (apply Hne; by eapply list_elem_of_lookup_2).
  exists (S p), (S q).
  rewrite !first_index_cons_ne, Hp, Hq by done.
  repeat split; lia.
Qed.

Lemma order_take (ext : list string) (id : string) (rest : list string) :
  (∀ x, x ∈ ext → x ≠ id) →
  (∀ x, x ∈ ext → x ∈ rest) →
  first_occurrence_order ext rest →
  first_occurrence_order (id :: ext) (id :: rest).
Proof.
  intros Hne Hin Hord i j a b Hij Ha Hb.
  destruct j as [|j]; [lia|]. simpl in Hb.
  assert (Hbin : b ∈ ext) by (by eapply list_elem_of_lookup_2).
  destruct i as [|i]; simpl in Ha.
  - injection Ha as <-.
    destruct (first_index_elem b rest (Hin b Hbin)) as [q Hq].
    assert (Hb' : b ≠ id) by (by apply Hne).
    exists 0, (S q). simpl. rewrite decide_True by done.
    rewrite decide_False, Hq by done.
    repeat split; lia.
  - assert (Hain : a ∈ ext) by (by eapply list_elem_of_lookup_2).
    destruct (Hord i j a b ltac:(lia) Ha Hb) as (p & q & Hp & Hq & Hpq).
    assert (Ha' : a ≠ id) by (by apply Hne).
    assert (Hb' : b ≠ id) by (by apply Hne).
    exists (S p), (S q).
    rewrite !first_index_cons_ne, Hp, Hq by done.
    repeat split; lia.
Qed.

Lemma sanitize_loop_cons (h : Host) (id : string) (rest : list string)
    (seen : gset string) (result : list string) :
  sanitize_loop h (id :: rest) seen result
  = if Js.falsy (Some id) || bool_decide (id ∈ seen) then
      sanitize_loop h rest seen result
    else if negb (hasChannel h id) then sanitize_loop h rest seen result
    else if negb (isDirectMessageChannel h (Some id)) then
      sanitize_loop h rest seen result
    else if decide (MAX_HISTORY ≤ length (result ++ [id])) then result ++ [id]
    else sanitize_loop h rest ({[id]} ∪ seen) (result ++ [id]).
Proof. reflexivity. Qed.

Lemma sanitize_loop_extends (h : Host) (ids : list string)
    (seen : gset string) (result : list string) :
  ∃ ext,
    sanitize_loop h ids seen result = result ++ ext
    ∧ NoDup ext
    ∧ (∀ x, x ∈ ext → (x ∉ seen) ∧ keeps h x)
    ∧ sublist ext ids
    ∧ first_occurrence_order ext ids
    ∧ (length result < MAX_HISTORY → length (result ++ ext) ≤ MAX_HISTORY).
Proof.
  revert seen result. induction ids as [|id rest IH]; intros seen result.
  { exists []. rewrite app_nil_r. split_and!.
    - done.
    - constructor.
    - intros x Hx. by apply elem_of_nil in Hx.
    - done.
    - intros i j a b _ Ha. by rewrite lookup_nil in Ha.
    - lia. }
  assert (Hskipped :
    ¬ ((id ∉ seen) ∧ keeps h id) →
    ∃ ext,
      sanitize_loop h rest seen result = result ++ ext
      ∧ NoDup ext
      ∧ (∀ x, x ∈ ext → (x ∉ seen) ∧ keeps h x)
      ∧ sublist ext (id :: rest)
      ∧ first_occurrence_order ext (id :: rest)
      ∧ (length result < MAX_HISTORY → length (result ++ ext) ≤ MAX_HISTORY)).
  { intros Hid.
    destruct (IH seen result) as (ext & Heq & Hnd & Hext & Hsub & Hord & Hlen).
    exists ext. split_and!.
    - done.
    - done.
    - done.
    - by apply sublist_cons.
    - apply order_skip; [|done]. intros x Hx ->. by apply Hid, Hext.
    - done. }
  rewrite sanitize_loop_cons.
  destruct (Js.falsy (Some id) || bool_decide (id ∈ seen)) eqn:Htest1.
  { apply Hskipped. intros [Hns [Hne _]].
    apply orb_true_iff in Htest1 as [Hf|Hs].
    - simpl in Hf. by apply bool_decide_eq_true in Hf.
    - by apply bool_decide_eq_true in Hs. }
  apply orb_false_iff in Htest1 as [Hf Hs].
  simpl in Hf. apply bool_decide_eq_false in Hf, Hs.
  destruct (hasChannel h id) eqn:Hhas; cbn [negb];
    [|apply Hskipped; intros [_ (_ & Hc & _)]; congruence].
  destruct (isDirectMessageChannel h (Some id)) eqn:Hdm; cbn [negb];
    [|apply Hskipped; intros [_ (_ & _ & Hc)]; congruence].
  assert (Hid : (id ∉ seen) ∧ keeps h id) by done.
  case_decide as Hfull.
  - exists [id]. split_and!.
    + done.
    + apply NoDup_singleton.
    + intros x Hx. by apply list_elem_of_singleton in Hx as ->.
    + apply sublist_skip, sublist_nil_l.
    + intros i j a b Hij _ Hb. destruct j as [|j]; [lia|].
      by rewrite lookup_cons, lookup_nil in Hb.
    + intros Hlt. rewrite length_app in *. simpl in *. lia.
  - destruct (IH ({[id]} ∪ seen) (result ++ [id]))
      as (ext & Heq & Hnd & Hext & Hsub & Hord & Hlen).
    assert (Hne : ∀ x, x ∈ ext → x ≠ id).
    { intros x Hx ->. destruct (Hext id Hx) as [Hn _].
      by apply Hn, elem_of_union_l, elem_of_singleton. }
    exists (id :: ext). split_and!.
    + by rewrite Heq, <- app_assoc.
    + apply NoDup_cons. split; [|done]. intros Hin. by eapply Hne.
    + intros x Hx. apply elem_of_cons in Hx as [->|Hx]; [done|].
      destruct (Hext x Hx) as [Hn Hk]. split; [|done].
      intros Hseen. by apply Hn, elem_of_union_r.
    + by apply sublist_skip.
    + apply order_take; [done| |done].
      intros x Hx. by eapply elem_of_sublist.
    + intros _. rewrite !length_app in Hlen. rewrite length_app in Hfull.
      rewrite length_app. simpl in *. lia.
Qed.

Lemma sanitizeHistory_extends (h : Host) (ids : list string) :
  NoDup (sanitizeHistory h ids)
  ∧ Forall (keeps h) (sanitizeHistory h ids)
  ∧ sublist (sanitizeHistory h ids) ids
  ∧ first_occurrence_order (sanitizeHistory h ids) ids
  ∧ length (sanitizeHistory h ids) ≤ MAX_HISTORY.
Proof.
  unfold sanitizeHistory.
  destruct (sanitize_loop_extends h ids ∅ [])
    as (ext & -> & Hnd & Hext & Hsub & Hord & Hlen).
  rewrite app_nil_l in *. split_and!; try done.
  - apply Forall_forall. intros x Hx. by apply Hext.
  - apply Hlen. unfold MAX_HISTORY. simpl. lia.
Qed.

Lemma sanitizeHistory_keeps (h : Host) (ids : list string) :
  Forall (keeps h) (sanitizeHistory h ids).
Proof. apply sanitizeHistory_extends. Qed.

Example sanitizeHistory_sample :
  sanitizeHistory (all_dms None defaults) ["B"; ""; "A"; "B"; "C"; "A"]%string
  = ["B"; "A"; "C"]%string.
Proof. vm_compute. reflexivity. Qed.

Example sanitizeHistory_none_eligible :
  sanitizeHistory (no_dms defaults) ["B"; "A"]%string = [].
Proof. vm_compute. reflexivity. Qed.

(** ** Begin and end of a session *)

Lemma index_Some {A} (l : list A) (i : Z) (x : A) :
  Js.index l i = Some x → (0 ≤ i < Z.of_nat (length l))%Z.
Proof.
  unfold Js.index. destruct (Z.ltb_spec i 0); [done|].
  intros Hx%lookup_lt_Some. lia.
Qed.

Lemma index_None {A} (l : list A) (i : Z) :
  Js.index l i = None → ¬ (0 ≤ i < Z.of_nat (length l))%Z.
Proof.
  unfold Js.index. destruct (Z.ltb_spec i 0); [lia|].
  intros Hx%lookup_ge_None. lia.
Qed.

Lemma beginCycleSession_idle (h : Host) (st : State) :
  isCyclingSessionActive st = false →
  let st' := beginCycleSession h st in
  isCyclingSessionActive st' = true
  ∧ suppressMruWhileCycling st' = true
  ∧ cycleIndex st' = 0%Z
  ∧ mruDmChannelIds st' = mruDmChannelIds st
  ∧ trace st' = trace st
  ∧ Forall (keeps h) (cycleSnapshot st').
Proof.
  intros Hidle. cbv zeta. unfold beginCycleSession. rewrite Hidle.
  split_and!; try reflexivity. apply sanitizeHistory_keeps.
Qed.

Lemma unmountOverlay_frame (st : State) :
  let st' := unmountOverlay st in
  mruDmChannelIds st' = mruDmChannelIds st
  ∧ isCyclingSessionActive st' = isCyclingSessionActive st
  ∧ suppressMruWhileCycling st' = suppressMruWhileCycling st
  ∧ cycleSnapshot st' = cycleSnapshot st
  ∧ cycleIndex st' = cycleIndex st
  ∧ promotions (trace st') = promotions (trace st).
Proof.
  cbv zeta. unfold unmountOverlay. destruct (overlayMounted st); simpl;
    rewrite ?promotions_app, ?app_nil_r; by split_and!.
Qed.

Lemma endCycleSession_active (h : Host) (st : State) :
  isCyclingSessionActive st = true →
  let st' := endCycleSession h st in
  isCyclingSessionActive st' = false
  ∧ suppressMruWhileCycling st' = false
  ∧ cycleSnapshot st' = []
  ∧ cycleIndex st' = (-1)%Z
  ∧ mruDmChannelIds st'
    = match selected st with
      | Some sel => promoted sel (mruDmChannelIds st)
      | None => mruDmChannelIds st
      end
  ∧ promotions (trace st')
    = promotions (trace st)
      ++ match selected st with Some sel => [sel] | None => [] end.
Proof.
  intros Hact. cbv zeta. unfold endCycleSession, selected. rewrite Hact.
  cbn [negb]. cbv zeta.
  change (cycleIndex (set_flags false false st)) with (cycleIndex st).
  change (cycleSnapshot (set_flags false false st)) with (cycleSnapshot st).
  set (body := if decide _ then _ else _).
  assert (Hbody :
    isCyclingSessionActive body = false
    ∧ suppressMruWhileCycling body = false
    ∧ mruDmChannelIds body
      = match selected st with
        | Some sel => promoted sel (mruDmChannelIds st)
        | None => mruDmChannelIds st
        end
    ∧ promotions (trace body)
      = promotions (trace st)
        ++ match selected st with Some sel => [sel] | None => [] end).
  { subst body. unfold selected.
    destruct (Js.index (cycleSnapshot st) (cycleIndex st)) as [sel|] eqn:Hsel.
    - apply index_Some in Hsel as Hrange. rewrite decide_True by done.
      destruct (Js.falsy (Some sel)); [by rewrite app_nil_r|].
      rewrite pushChannelToFront_promotions, pushChannelToFront_mru.
      destruct (instantSwitch (store h)); simpl;
        rewrite ?promotions_app, ?app_nil_r; by split_and!.
    - apply index_None in Hsel as Hrange. rewrite decide_False by done.
      by rewrite app_nil_r. }
  clearbody body. destruct Hbody as (Ha & Hs & Hm & Hp).
  destruct (visualStyle (store h));
    [destruct (unmountOverlay_frame
                 (set_toast false (set_index (-1) (set_snapshot [] body))))
       as (-> & -> & -> & -> & -> & ->)|..];
    simpl; by split_and!.
Qed.

Lemma beginCycleSession_active (h : Host) (st : State) :
  isCyclingSessionActive st = true → beginCycleSession h st = st.
Proof. intros Hact. unfold beginCycleSession. by rewrite Hact. Qed.

Lemma endCycleSession_idle (h : Host) (st : State) :
  isCyclingSessionActive st = false → endCycleSession h st = st.
Proof. intros Hidle. unfold endCycleSession. by rewrite Hidle. Qed.


Lemma GUILD_SELECT_frame (h : Host) (g : option string) (st : State) :
  let st' := GUILD_SELECT h g st in
  mruDmChannelIds st' = mruDmChannelIds st
  ∧ isCyclingSessionActive st' = isCyclingSessionActive st
  ∧ suppressMruWhileCycling st' = suppressMruWhileCycling st
  ∧ cycleSnapshot st' = cycleSnapshot st
  ∧ cycleIndex st' = cycleIndex st
  ∧ promotions (trace st') = promotions (trace st).
Proof.
  cbv zeta. unfold GUILD_SELECT.
  destruct (isCyclingSessionActive st) eqn:Hact; cbn [negb];
    [|by rewrite Hact].
  destruct (Js.falsy g); [by rewrite Hact|].
  destruct (Js.index (cycleSnapshot st) (cycleIndex st)) as [t|];
    [|by rewrite Hact].
  destruct (Js.falsy (Some t)); [by rewrite Hact|].
  simpl. rewrite promotions_app, app_nil_r. by split_and!.
Qed.

(** ** The two session flags *)

Lemma flags_agree_same (st st' : State) :
  isCyclingSessionActive st' = isCyclingSessionActive st →
  suppressMruWhileCycling st' = suppressMruWhileCycling st →
  flags_agree st → flags_agree st'.
Proof. unfold flags_agree. congruence. Qed.

Lemma beginCycleSession_flags (h : Host) (st : State) :
  flags_agree st →
  isCyclingSessionActive (beginCycleSession h st) = true
  ∧ suppressMruWhileCycling (beginCycleSession h st) = true.
Proof.
  unfold flags_agree. intros Hinv.
  destruct (isCyclingSessionActive st) eqn:Hact.
  - by rewrite beginCycleSession_active, Hact.
  - by destruct (beginCycleSession_idle h st Hact) as (-> & -> & _).
Qed.

Lemma endCycleSession_flags (h : Host) (st : State) :
  flags_agree st →
  isCyclingSessionActive (endCycleSession h st) = false
  ∧ suppressMruWhileCycling (endCycleSession h st) = false.
Proof.
  unfold flags_agree. intros Hinv.
  destruct (isCyclingSessionActive st) eqn:Hact.
  - by destruct (endCycleSession_active h st Hact) as (-> & -> & _).
  - by rewrite endCycleSession_idle, Hact.
Qed.

Lemma stop_flags (h : Host) (st : State) :
  isCyclingSessionActive (stop h st) = false
  ∧ suppressMruWhileCycling (stop h st) = false.
Proof.
  unfold stop. destruct (visualStyle (store h)); try done.
  by destruct (unmountOverlay_frame
                 (set_toast false
                    (set_index (-1)
                       (set_snapshot [] (set_flags false false st)))))
    as (_ & -> & -> & _).
Qed.

Lemma stepCycle_flags (h : Host) (d : Direction) (st : State) :
  isCyclingSessionActive (stepCycle h d st) = isCyclingSessionActive st
  ∧ suppressMruWhileCycling (stepCycle h d st) = suppressMruWhileCycling st.
Proof. by destruct (stepCycle_frame h d st) as (_ & -> & -> & _). Qed.

Lemma clearMru_flags (st : State) :
  isCyclingSessionActive (clearMru st) = isCyclingSessionActive st
  ∧ suppressMruWhileCycling (clearMru st) = suppressMruWhileCycling st.
Proof. done. Qed.

Lemma handle_flags_agree (h : Host) (sig : Signal) (st : State) :
  flags_agree st → flags_agree (handle h sig st).
Proof.
  intros Hinv. destruct sig as [|d| |e|e|c|g|saved| |]; simpl.
  - unfold flags_agree.
    by destruct (beginCycleSession_flags h st Hinv) as [-> ->].
  - destruct (stepCycle_flags h d st) as [Ha Hs].
    by apply (flags_agree_same st).
  - unfold flags_agree.
    by destruct (endCycleSession_flags h st Hinv) as [-> ->].
  - unfold onKeyDown.
    destruct (negb (ctrlKey e || IS_MAC h && metaKey e)); [done|].
    case_bool_decide; [|done].
    set (st1 := if negb (isCyclingSessionActive st) then _ else _).
    assert (Hst1 : flags_agree st1).
    { subst st1. destruct (negb (isCyclingSessionActive st)); [|done].
      unfold flags_agree.
      by destruct (beginCycleSession_flags h st Hinv) as [-> ->]. }
    destruct (stepCycle_flags h (if shiftKey e then Backward else Forward) st1)
      as [Ha Hs].
    by apply (flags_agree_same st1).
  - unfold onKeyUp.
    destruct (_ || _); [|done].
    destruct (negb (ctrlKey e || metaKey e)); [|done].
    unfold flags_agree.
    by destruct (endCycleSession_flags h st Hinv) as [-> ->].
  - unfold CHANNEL_SELECT.
    destruct (suppressMruWhileCycling st); [done|].
    destruct c as [c|]; [|done].
    destruct (Js.falsy (Some c)); [done|].
    by destruct (negb (isDirectMessageChannel h (Some c))).
  - destruct (GUILD_SELECT_frame h g st) as (_ & Ha & Hs & _).
    by apply (flags_agree_same st).
  - unfold start. destruct (getChannelId h) as [c|]; [|done].
    by destruct (isDirectMessageChannel h (Some c)).
  - unfold flags_agree. by destruct (stop_flags h st) as [-> ->].
  - done.
Qed.

Lemma run_flags_agree (sigs : list (Host * Signal)) (st : State) :
  flags_agree st → flags_agree (run sigs st).
Proof.
  revert st. induction sigs as [|[h sig] sigs IH]; intros st Hinv; [done|].
  apply IH. by apply handle_flags_agree.
Qed.

(** C9. [suppressMruWhileCycling = isCyclingSessionActive] holds in
    the initial state and is preserved by every signal the plugin
    handles, hence in every reachable state: [beginCycleSession] leaves
    both flags true, [endCycleSession] and [stop] leave both false, and
    the clear button and [stepCycle] change neither flag. *)
Theorem flags_agree_invariant :
  flags_agree initial
  ∧ (∀ h sig st, flags_agree st → flags_agree (handle h sig st))
  ∧ (∀ sigs, flags_agree (run sigs initial))
  ∧ (∀ h st, flags_agree st →
       isCyclingSessionActive (beginCycleSession h st) = true
       ∧ suppressMruWhileCycling (beginCycleSession h st) = true)
  ∧ (∀ h st, flags_agree st →
       isCyclingSessionActive (endCycleSession h st) = false
       ∧ suppressMruWhileCycling (endCycleSession h st) = false)
  ∧ (∀ h st,
       isCyclingSessionActive (stop h st) = false
       ∧ suppressMruWhileCycling (stop h st) = false)
  ∧ (∀ st,
       isCyclingSessionActive (clearMru st) = isCyclingSessionActive st
       ∧ suppressMruWhileCycling (clearMru st) = suppressMruWhileCycling st)
  ∧ (∀ h d st,
       isCyclingSessionActive (stepCycle h d st) = isCyclingSessionActive st
       ∧ suppressMruWhileCycling (stepCycle h d st)
         = suppressMruWhileCycling st).
Proof.
  split_and!.
  - reflexivity.
  - apply handle_flags_agree.
  - intros sigs. by apply run_flags_agree.
  - apply beginCycleSession_flags.
  - apply endCycleSession_flags.
  - apply stop_flags.
  - apply clearMru_flags.
  - apply stepCycle_flags.
Qed.

Lemma flags_agree_invariant_witness :
  flags_agree initial
  ∧ flags_agree (handle (all_dms (Some "A"%string) defaults) SigBegin initial)
  ∧ isCyclingSessionActive
      (beginCycleSession (all_dms (Some "A"%string) defaults) initial) = true
  ∧ isCyclingSessionActive
      (endCycleSession (all_dms (Some "A"%string) defaults)
         (beginCycleSession (all_dms (Some "A"%string) defaults) initial))
    = false.
Proof.
  destruct flags_agree_invariant as (H0 & Hstep & _ & Hb & He & _).
  split_and!.
  - exact H0.
  - apply Hstep. reflexivity.
  - apply Hb. reflexivity.
  - apply He. vm_compute. reflexivity.
Defined.

(** ** Gestures on an empty snapshot *)

Lemma step_all_idle (steps : list (Host * Direction)) (st : State) :
  step_moves st = false → step_all steps st = st.
Proof.
  intros Hidle. induction steps as [|[h d] steps IH]; [done|].
  unfold step_all. simpl. rewrite stepCycle_idle by done. exact IH.
Qed.

Lemma step_moves_empty (st : State) :
  cycleSnapshot st = [] → step_moves st = false.
Proof.
  intros Hnil. unfold step_moves. rewrite Hnil.
  apply andb_false_intro2. apply bool_decide_eq_false. simpl. lia.
Qed.

Lemma selected_empty (st : State) :
  cycleSnapshot st = [] → selected st = None.
Proof.
  intros Hnil. unfold selected, Js.index. rewrite Hnil.
  destruct (cycleIndex st <? 0)%Z; [done|]. by rewrite lookup_nil.
Qed.

(** C10. When [beginCycleSession] produces an empty snapshot, every
    following step leaves the state as it is, with the cursor on 0, and
    [endCycleSession] commits nothing: [pushChannelToFront] is not
    called and the history list is the one from before the gesture. *)
Theorem empty_snapshot_gesture (hb he : Host)
    (steps : list (Host * Direction)) (st : State) :
  isCyclingSessionActive st = false →
  cycleSnapshot (beginCycleSession hb st) = [] →
  let st1 := beginCycleSession hb st in
  let st2 := step_all steps st1 in
  let st3 := endCycleSession he st2 in
  (∀ h d, stepCycle h d st1 = st1)
  ∧ st2 = st1
  ∧ cycleIndex st2 = 0%Z
  ∧ promotions (trace st3) = promotions (trace st)
  ∧ mruDmChannelIds st3 = mruDmChannelIds st.
Proof.
  intros Hidle Hnil. cbv zeta.
  pose proof (step_moves_empty _ Hnil) as Hstill.
  rewrite step_all_idle by done.
  destruct (beginCycleSession_idle hb st Hidle)
    as (Hact & _ & Hidx & Hmru & Htr & _).
  destruct (endCycleSession_active he _ Hact) as (_ & _ & _ & _ & Hm & Hp).
  rewrite selected_empty in Hm, Hp by done.
  split_and!.
  - intros h d. by apply stepCycle_idle.
  - done.
  - done.
  - by rewrite Hp, app_nil_r, Htr.
  - by rewrite Hm.
Qed.

Lemma empty_snapshot_gesture_witness :
  let hb := no_dms defaults in
  let st := with_history ["B"; "C"]%string in
  let steps := [(hb, Forward); (hb, Backward)] in
  let st1 := beginCycleSession hb st in
  let st2 := step_all steps st1 in
  let st3 := endCycleSession hb st2 in
  (∀ h d, stepCycle h d st1 = st1)
  ∧ st2 = st1
  ∧ cycleIndex st2 = 0%Z
  ∧ promotions (trace st3) = promotions (trace st)
  ∧ mruDmChannelIds st3 = mruDmChannelIds st.
Proof.
  apply (empty_snapshot_gesture (no_dms defaults) (no_dms defaults)
           [(no_dms defaults, Forward); (no_dms defaults, Backward)]
           (with_history ["B"; "C"]%string));
    vm_compute; reflexivity.
Defined.

(** ** Promotion and clearing during a session *)

Lemma promote_all_frame (cs : list string) (st : State) :
  cycleSnapshot (promote_all cs st) = cycleSnapshot st
  ∧ cycleIndex (promote_all cs st) = cycleIndex st
  ∧ isCyclingSessionActive (promote_all cs st) = isCyclingSessionActive st.
Proof.
  induction cs as [|c cs IH] using rev_ind; [done|].
  rewrite promote_all_snoc. exact IH.
Qed.

(** C7. In an active session, promoting an identifier in the history
    list, once or any number of times, leaves the session's snapshot
    with the same entries in the same order (and the cursor and the
    active flag as they were). *)
Theorem promote_keeps_snapshot (st : State) (id : string) (more : list string) :
  isCyclingSessionActive st = true →
  cycleSnapshot (pushChannelToFront id st) = cycleSnapshot st
  ∧ cycleSnapshot (promote_all (id :: more) st) = cycleSnapshot st
  ∧ cycleIndex (promote_all (id :: more) st) = cycleIndex st
  ∧ isCyclingSessionActive (promote_all (id :: more) st) = true.
Proof.
  intros Hact.
  destruct (promote_all_frame (id :: more) st) as (Hs & Hi & Ha).
  split_and!; [reflexivity|exact Hs|exact Hi|by rewrite Ha].
Qed.

Lemma promote_keeps_snapshot_witness :
  let st := beginCycleSession (all_dms (Some "A"%string) defaults)
              (with_history ["B"; "C"]%string) in
  cycleSnapshot st = ["A"; "B"; "C"]%string
  ∧ cycleSnapshot (pushChannelToFront "Z"%string st) = cycleSnapshot st
  ∧ cycleSnapshot (promote_all ["Z"; "C"]%string st) = cycleSnapshot st
  ∧ cycleIndex (promote_all ["Z"; "C"]%string st) = cycleIndex st
  ∧ isCyclingSessionActive (promote_all ["Z"; "C"]%string st) = true.
Proof.
  split; [vm_compute; reflexivity|].
  apply (promote_keeps_snapshot
           (beginCycleSession (all_dms (Some "A"%string) defaults)
              (with_history ["B"; "C"]%string))
           "Z"%string ["C"%string]).
  vm_compute. reflexivity.
Defined.

(** C2, as the code has it.  Clearing the history during an active
    session empties the history list and the snapshot and puts the
    cursor on the sentinel, and leaves both session flags as they are:
    the session is still active.  A following step changes nothing, and
    a following [endCycleSession] calls no [pushChannelToFront], leaves
    the history list empty and makes the session idle. *)
Theorem clear_during_session (st : State) :
  isCyclingSessionActive st = true →
  let st' := clearMru st in
  isCyclingSessionActive st' = true
  ∧ suppressMruWhileCycling st' = suppressMruWhileCycling st
  ∧ mruDmChannelIds st' = []
  ∧ cycleSnapshot st' = []
  ∧ cycleIndex st' = (-1)%Z
  ∧ (∀ h d, stepCycle h d st' = st')
  ∧ (∀ h,
       isCyclingSessionActive (endCycleSession h st') = false
       ∧ mruDmChannelIds (endCycleSession h st') = []
       ∧ promotions (trace (endCycleSession h st')) = promotions (trace st)).
Proof.
  intros Hact. cbv zeta.
  assert (Hnil : cycleSnapshot (clearMru st) = []) by reflexivity.
  assert (Hact' : isCyclingSessionActive (clearMru st) = true) by exact Hact.
  split_and!; try done.
  - intros h d. by apply stepCycle_idle, step_moves_empty.
  - intros h.
    destruct (endCycleSession_active h _ Hact') as (Ha & _ & _ & _ & Hm & Hp).
    rewrite selected_empty in Hm, Hp by done.
    split_and!; [done|by rewrite Hm|].
    rewrite Hp, app_nil_r. simpl. by rewrite !promotions_app, !app_nil_r.
Qed.

Lemma clear_during_session_witness :
  let st := beginCycleSession (all_dms (Some "A"%string) defaults)
              (with_history ["B"; "C"]%string) in
  let st' := clearMru st in
  isCyclingSessionActive st' = true
  ∧ suppressMruWhileCycling st' = suppressMruWhileCycling st
  ∧ mruDmChannelIds st' = []
  ∧ cycleSnapshot st' = []
  ∧ cycleIndex st' = (-1)%Z
  ∧ (∀ h d, stepCycle h d st' = st')
  ∧ (∀ h,
       isCyclingSessionActive (endCycleSession h st') = false
       ∧ mruDmChannelIds (endCycleSession h st') = []
       ∧ promotions (trace (endCycleSession h st')) = promotions (trace st)).
Proof.
  apply (clear_during_session
           (beginCycleSession (all_dms (Some "A"%string) defaults)
              (with_history ["B"; "C"]%string))).
  vm_compute. reflexivity.
Defined.

(** C2 as stated fails: after the clear button is pressed in an active
    session, the session is still active. *)
Lemma clear_leaves_session_active :
  let st := beginCycleSession (all_dms (Some "A"%string) defaults)
              (with_history ["B"; "C"]%string) in
  isCyclingSessionActive st = true
  ∧ ¬ (isCyclingSessionActive (clearMru st) = false).
Proof. vm_compute. split; [reflexivity|discriminate]. Qed.

(** ** The single commit of a gesture *)







(** ** The scenario with history B, C and current conversation A *)

Lemma sanitizeHistory_three (h : Host) (a b c : string) :
  keeps h a → keeps h b → keeps h c →
  a ≠ b → a ≠ c → b ≠ c →
  sanitizeHistory h [a; b; c] = [a; b; c].
Proof.
  intros (Ha1 & Ha2 & Ha3) (Hb1 & Hb2 & Hb3) (Hc1 & Hc2 & Hc3) Hab Hac Hbc.
  assert (Hseen_a : a ∉ (∅ : gset string)) by apply not_elem_of_empty.
  assert (Hseen_b : b ∉ ({[a]} ∪ ∅ : gset string)).
  { apply not_elem_of_union. split; [|apply not_elem_of_empty].
    apply not_elem_of_singleton. congruence. }
  assert (Hseen_c : c ∉ ({[b]} ∪ ({[a]} ∪ ∅) : gset string)).
  { apply not_elem_of_union. split; [apply not_elem_of_singleton; congruence|].
    apply not_elem_of_union. split; [|apply not_elem_of_empty].
    apply not_elem_of_singleton. congruence. }
  unfold sanitizeHistory. rewrite !sanitize_loop_cons.
  cbn [Js.falsy]. rewrite Ha2, Ha3, Hb2, Hb3, Hc2, Hc3.
  rewrite !(bool_decide_false (_ = EmptyString)) by done.
  rewrite (bool_decide_false (a ∈ _)) by done.
  cbn [orb negb app length].
  rewrite (decide_False (P := MAX_HISTORY ≤ 1)) by (unfold MAX_HISTORY; lia).
  rewrite (bool_decide_false (b ∈ _)) by done.
  cbn [orb negb app length].
  rewrite (decide_False (P := MAX_HISTORY ≤ 2)) by (unfold MAX_HISTORY; lia).
  rewrite (bool_decide_false (c ∈ _)) by done.
  cbn [orb negb app length].
  rewrite (decide_False (P := MAX_HISTORY ≤ 3)) by (unfold MAX_HISTORY; lia).
  reflexivity.
Qed.

Lemma beginCycleSession_snapshot (h : Host) (st : State) :
  isCyclingSessionActive st = false →
  cycleSnapshot (beginCycleSession h st)
  = sanitizeHistory h
      ((if isDirectMessageChannel h (getChannelId h)
        then match getChannelId h with Some c => [c] | None => [] end
        else [])
       ++ mruDmChannelIds st).
Proof. intros Hidle. unfold beginCycleSession. by rewrite Hidle. Qed.

(** C4, as the code has it.  With history B, C, an idle session and
    the eligible conversation A selected: [beginCycleSession] makes the
    snapshot A, B, C with the cursor on 0; a forward step puts the
    cursor on 1 (B), a second one on 2 (C), a backward step on 1 (B);
    [endCycleSession] then promotes B, and the history list is B, C:
    the anchor A is not inserted. *)
Theorem scenario_history_BC_current_A (hb h1 h2 h3 he : Host) (st : State) :
  isCyclingSessionActive st = false →
  mruDmChannelIds st = ["B"; "C"]%string →
  getChannelId hb = Some "A"%string →
  keeps hb "A"%string → keeps hb "B"%string → keeps hb "C"%string →
  let s0 := beginCycleSession hb st in
  let s1 := stepCycle h1 Forward s0 in
  let s2 := stepCycle h2 Forward s1 in
  let s3 := stepCycle h3 Backward s2 in
  let s4 := endCycleSession he s3 in
  cycleSnapshot s0 = ["A"; "B"; "C"]%string
  ∧ cycleIndex s0 = 0%Z
  ∧ cycleIndex s1 = 1%Z
  ∧ cycleIndex s2 = 2%Z
  ∧ cycleIndex s3 = 1%Z
  ∧ selected s3 = Some "B"%string
  ∧ promotions (trace s4) = promotions (trace st) ++ ["B"%string]
  ∧ mruDmChannelIds s4 = ["B"; "C"]%string.
Proof.
  intros Hidle Hmru Hcur Ha Hb Hc. cbv zeta.
  set (s0 := beginCycleSession hb st).
  set (s1 := stepCycle h1 Forward s0).
  set (s2 := stepCycle h2 Forward s1).
  set (s3 := stepCycle h3 Backward s2).
  assert (Hsnap0 : cycleSnapshot s0 = ["A"; "B"; "C"]%string).
  { subst s0. rewrite beginCycleSession_snapshot by done.
    rewrite Hcur, Hmru. destruct Ha as (Ha1 & Ha2 & Ha3). rewrite Ha3.
    apply sanitizeHistory_three; done. }
  destruct (beginCycleSession_idle hb st Hidle)
    as (Hact0 & _ & Hidx0 & Hmru0 & Htr0 & _).
  fold s0 in Hact0, Hidx0, Hmru0, Htr0.
  destruct (stepCycle_frame h1 Forward s0) as (Hm1 & Hact1 & _ & Hsnap1 & Hp1).
  fold s1 in Hm1, Hact1, Hsnap1, Hp1.
  destruct (stepCycle_frame h2 Forward s1) as (Hm2 & Hact2 & _ & Hsnap2 & Hp2).
  fold s2 in Hm2, Hact2, Hsnap2, Hp2.
  destruct (stepCycle_frame h3 Backward s2) as (Hm3 & Hact3 & _ & Hsnap3 & Hp3).
  fold s3 in Hm3, Hact3, Hsnap3, Hp3.
  rewrite Hact0 in Hact1. rewrite Hact1 in Hact2. rewrite Hact2 in Hact3.
  rewrite Hsnap0 in Hsnap1. rewrite Hsnap1 in Hsnap2. rewrite Hsnap2 in Hsnap3.
  assert (Hidx1 : cycleIndex s1 = 1%Z).
  { subst s1. rewrite stepCycle_index_mod; rewrite ?Hsnap0, ?Hidx0; try done.
    simpl. lia. }
  assert (Hidx2 : cycleIndex s2 = 2%Z).
  { subst s2. rewrite stepCycle_index_mod; rewrite ?Hsnap1, ?Hidx1; try done.
    simpl. lia. }
  assert (Hidx3 : cycleIndex s3 = 1%Z).
  { subst s3. rewrite stepCycle_index_mod; rewrite ?Hsnap2, ?Hidx2; try done.
    simpl. lia. }
  assert (Hsel : selected s3 = Some "B"%string).
  { unfold selected. by rewrite Hsnap3, Hidx3. }
  destruct (endCycleSession_active he s3 Hact3) as (_ & _ & _ & _ & Hm & Hp).
  rewrite Hsel in Hm, Hp.
  split_and!; try done.
  - by rewrite Hp, Hp3, Hp2, Hp1, Htr0.
  - by rewrite Hm, Hm3, Hm2, Hm1, Hmru0, Hmru.
Qed.

Lemma scenario_history_BC_current_A_witness :
  let h := all_dms (Some "A"%string) defaults in
  let st := with_history ["B"; "C"]%string in
  let s0 := beginCycleSession h st in
  let s1 := stepCycle h Forward s0 in
  let s2 := stepCycle h Forward s1 in
  let s3 := stepCycle h Backward s2 in
  let s4 := endCycleSession h s3 in
  cycleSnapshot s0 = ["A"; "B"; "C"]%string
  ∧ cycleIndex s0 = 0%Z
  ∧ cycleIndex s1 = 1%Z
  ∧ cycleIndex s2 = 2%Z
  ∧ cycleIndex s3 = 1%Z
  ∧ selected s3 = Some "B"%string
  ∧ promotions (trace s4) = promotions (trace st) ++ ["B"%string]
  ∧ mruDmChannelIds s4 = ["B"; "C"]%string.
Proof.
  apply (scenario_history_BC_current_A
           (all_dms (Some "A"%string) defaults)
           (all_dms (Some "A"%string) defaults)
           (all_dms (Some "A"%string) defaults)
           (all_dms (Some "A"%string) defaults)
           (all_dms (Some "A"%string) defaults)
           (with_history ["B"; "C"]%string));
    try reflexivity; vm_compute; split_and!; (reflexivity || discriminate).
Defined.

(** C4 as stated fails: at the end of the scenario the history list is
    B, C and not B, A, C, whether the navigation happens on each step
    or at the end. *)
Lemma scenario_ends_without_anchor :
  let final s :=
    let h := all_dms (Some "A"%string) s in
    mruDmChannelIds
      (endCycleSession h
         (stepCycle h Backward
            (stepCycle h Forward
               (stepCycle h Forward
                  (beginCycleSession h (with_history ["B"; "C"]%string)))))) in
  final defaults = ["B"; "C"]%string
  ∧ final on_release = ["B"; "C"]%string
  ∧ final defaults ≠ ["B"; "A"; "C"]%string
  ∧ final on_release ≠ ["B"; "A"; "C"]%string.
Proof. vm_compute. split_and!; (reflexivity || discriminate). Qed.

(** ** Row pagination *)

Lemma slice_nat {A} (l : list A) (a b : nat) :
  a ≤ length l → b ≤ length l →
  Js.slice l (Z.of_nat a) (Z.of_nat b) = take (b - a) (drop a l).
Proof.
  intros Ha Hb. unfold Js.slice, Js.rel_index.
  destruct (Z.ltb_spec (Z.of_nat a) 0); [lia|].
  destruct (Z.ltb_spec (Z.of_nat b) 0); [lia|].
  rewrite !Z.min_l by lia.
  rewrite Nat2Z.id. f_equal. lia.
Qed.

Lemma slice_prefix {A} (l : list A) (n : nat) :
  Js.slice l 0 (Z.of_nat n) = take (Nat.min n (length l)) l.
Proof.
  change 0%Z with (Z.of_nat 0).
  destruct (Nat.le_gt_cases n (length l)) as [Hle|Hgt].
  - rewrite slice_nat by lia. rewrite Nat.min_l by done.
    by rewrite Nat.sub_0_r.
  - rewrite Nat.min_r by lia. rewrite firstn_all.
    unfold Js.slice, Js.rel_index.
    destruct (Z.ltb_spec (Z.of_nat 0) 0); [lia|].
    destruct (Z.ltb_spec (Z.of_nat n) 0); [lia|].
    rewrite Z.min_r, Z.min_l by lia. simpl.
    rewrite Z.sub_0_r, Nat2Z.id. apply firstn_all.
Qed.

Section Row.

Variable s : Settings.
Hypothesis row_mode : overlayMode s = OmRow.
Variable snapshot : list string.
Variable cursor : nat.

Lemma row_pageSize :
  pageSize s = Z.of_nat (RowSpec.pageSize (overlayRowLength s)).
Proof.
  unfold pageSize, RowSpec.pageSize, maxCount. rewrite row_mode. lia.
Qed.

Lemma row_pageSize_pos : 3 ≤ RowSpec.pageSize (overlayRowLength s) ≤ 7.
Proof. unfold RowSpec.pageSize. lia. Qed.

Lemma row_visibleList :
  visibleList s snapshot (Z.of_nat cursor)
  = Some <$> RowSpec.workingList snapshot (overlayRowLength s).
Proof.
  unfold visibleList, totalSlots. rewrite row_mode, row_pageSize.
  f_equal. unfold RowSpec.workingList.
  replace (Z.of_nat (RowSpec.pageSize (overlayRowLength s)) * 2)%Z
    with (Z.of_nat (2 * RowSpec.pageSize (overlayRowLength s))) by lia.
  apply slice_prefix.
Qed.

Lemma row_pageCount :
  overlayPageCount s snapshot (Z.of_nat cursor)
  = Z.of_nat (RowSpec.pageCount snapshot (overlayRowLength s)).
Proof.
  unfold overlayPageCount, RowSpec.pageCount.
  rewrite row_mode, row_visibleList, length_fmap, row_pageSize.
  repeat case_decide; try done; lia.
Qed.

Lemma row_currentPage :
  overlayCurrentPage s snapshot (Z.of_nat cursor)
  = Z.of_nat (RowSpec.currentPage snapshot cursor (overlayRowLength s)).
Proof.
  unfold overlayCurrentPage, RowSpec.currentPage, Js.floor_div.
  rewrite row_mode, row_pageCount, row_pageSize.
  rewrite decide_True by lia. rewrite <- Nat2Z.inj_div.
  assert (1 ≤ RowSpec.pageCount snapshot (overlayRowLength s))
    by (unfold RowSpec.pageCount; case_decide; lia).
  lia.
Qed.

Lemma row_pageItems :
  overlayPageItems s snapshot (Z.of_nat cursor)
  = Some <$> RowSpec.window snapshot cursor (overlayRowLength s).
Proof.
  unfold overlayPageItems, RowSpec.window.
  rewrite row_currentPage, row_visibleList, row_pageSize, length_fmap.
  pose proof row_pageSize_pos as Hps.
  set (wl := RowSpec.workingList snapshot (overlayRowLength s)).
  set (cp := RowSpec.currentPage snapshot cursor (overlayRowLength s)).
  set (ps := RowSpec.pageSize (overlayRowLength s)) in *.
  assert (Hstart : cp * ps ≤ length wl).
  { subst cp. unfold RowSpec.currentPage, RowSpec.pageCount.
    fold wl ps. case_decide; simpl; [|lia].
    destruct (cursor / ps); simpl; lia. }
  replace (Z.of_nat cp * Z.of_nat ps)%Z with (Z.of_nat (cp * ps)) by lia.
  replace (Z.min (Z.of_nat (cp * ps) + Z.of_nat ps) (Z.of_nat (length wl)))
    with (Z.of_nat (Nat.min ((cp + 1) * ps) (length wl))) by lia.
  rewrite slice_nat by (rewrite ?length_fmap; lia).
  unfold RowSpec.window_start, RowSpec.window_stop. fold wl cp ps.
  by rewrite fmap_take, fmap_drop.
Qed.

End Row.

Lemma row_scenario (snapshot : list string) :
  length snapshot = 8 →
  RowSpec.workingList snapshot 5 = snapshot
  ∧ RowSpec.pageCount snapshot 5 = 2
  ∧ RowSpec.currentPage snapshot 6 5 = 1
  ∧ RowSpec.window_start snapshot 6 5 = 5
  ∧ RowSpec.window_stop snapshot 6 5 = 8
  ∧ RowSpec.window snapshot 6 5 = drop 5 snapshot.
Proof.
  intros Hlen.
  do 9 (destruct snapshot as [|? snapshot]; try discriminate Hlen).
  by split_and!.
Qed.

(** C8. In row mode the overlay's page computation depends on the
    snapshot, the cursor and the row length only, and is the one the
    specification words: the working list is the first
    [min (2 * pageSize) |snapshot|] entries, there are two pages when
    the working list exceeds one page and one otherwise, the current
    page is [min (pageCount - 1) (cursor / pageSize)] and the cards are
    the working list's entries from [currentPage * pageSize] to
    [min ((currentPage + 1) * pageSize) |workingList|].  With 8 entries,
    a row length of 5 and the cursor on 6 there are 2 pages, the
    current page is 1 and the cards are the entries 5, 6 and 7. *)
Theorem row_pagination (s : Settings) (snapshot : list string) (cursor : nat) :
  overlayMode s = OmRow →
  let d := OverlayContent s snapshot (Z.of_nat cursor) in
  let rl := overlayRowLength s in
  visibleList s snapshot (Z.of_nat cursor)
  = Some <$> RowSpec.workingList snapshot rl
  ∧ pageCount d = Z.of_nat (RowSpec.pageCount snapshot rl)
  ∧ currentPage d = Z.of_nat (RowSpec.currentPage snapshot cursor rl)
  ∧ fst <$> pageItems d = Some <$> RowSpec.window snapshot cursor rl
  ∧ (length snapshot = 8 → rl = 5%Z → cursor = 6 →
       pageCount d = 2%Z
       ∧ currentPage d = 1%Z
       ∧ RowSpec.window_start snapshot cursor rl = 5
       ∧ RowSpec.window_stop snapshot cursor rl = 8
       ∧ fst <$> pageItems d = Some <$> drop 5 snapshot).
Proof.
  intros Hrow. cbv zeta.
  assert (Hitems :
    fst <$> pageItems (OverlayContent s snapshot (Z.of_nat cursor))
    = Some <$> RowSpec.window snapshot cursor (overlayRowLength s)).
  { unfold OverlayContent. cbn [pageItems].
    rewrite <- list_fmap_compose, <- row_pageItems by done.
    induction (overlayPageItems s snapshot (Z.of_nat cursor)) as [|x l IH];
      [done|].
    rewrite fmap_cons. by f_equal. }
  unfold OverlayContent in *. cbn [pageCount currentPage] in *.
  split_and!.
  - by apply row_visibleList.
  - by apply row_pageCount.
  - by apply row_currentPage.
  - exact Hitems.
  - intros Hlen Hrl ->.
    destruct (row_scenario snapshot Hlen) as (_ & Hpc & Hcp & Ha & Hb & Hw).
    rewrite Hitems, row_pageCount, row_currentPage by done.
    rewrite Hrl, Hpc, Hcp, Ha, Hb, Hw. by split_and!.
Qed.

Lemma row_pagination_witness :
  let snapshot := ["a"; "b"; "c"; "d"; "e"; "f"; "g"; "h"]%string in
  let d := OverlayContent defaults snapshot 6 in
  pageCount d = 2%Z
  ∧ currentPage d = 1%Z
  ∧ fst <$> pageItems d = [Some "f"; Some "g"; Some "h"]%string.
Proof.
  destruct (row_pagination defaults
              ["a"; "b"; "c"; "d"; "e"; "f"; "g"; "h"]%string 6)
    as (_ & _ & _ & _ & Hscn); [reflexivity|].
  destruct Hscn as (Hpc & Hcp & _ & _ & Hw); [reflexivity ..|].
  split_and!; [exact Hpc|exact Hcp|exact Hw].
Defined.

(** * Further properties of the history store and of the session *)

(** ** Shape of a promoted list *)

Lemma filter_ne_all (c : string) (l : list string) :
  Forall (λ x, x ≠ c) l → filter (λ id, id ≠ c) l = l.
Proof.
  induction 1 as [|y l Hy _ IH]; [done|].
  rewrite filter_cons_True by done. by rewrite IH.
Qed.

Lemma not_elem_all_ne (c : string) (l : list string) :
  c ∉ l → Forall (λ x, x ≠ c) l.
Proof.
  intros Hc. apply Forall_forall. intros x Hx ->. by apply Hc.
Qed.

Lemma promoted_shape (c : string) (l : list string) :
  promoted c l = c :: take (MAX_HISTORY - 1) (filter (λ id, id ≠ c) l).
Proof.
  unfold promoted. case_decide as Hlong.
  - reflexivity.
  - rewrite take_ge; [done|]. rewrite length_cons in Hlong.
    unfold MAX_HISTORY in *. lia.
Qed.

Lemma promoted_fixed (c : string) (tail : list string) :
  Forall (λ x, x ≠ c) tail →
  length tail < MAX_HISTORY →
  promoted c (c :: tail) = c :: tail.
Proof.
  intros Hne Hlen. rewrite promoted_shape.
  rewrite filter_cons_False by (intros Hc; by apply Hc).
  rewrite filter_ne_all by done.
  rewrite take_ge; [done|]. unfold MAX_HISTORY in *. lia.
Qed.

(** X1. Promoting the same identifier twice in a row gives the history
    list that promoting it once gives. *)
Theorem promote_twice (c : string) (st : State) :
  mruDmChannelIds (pushChannelToFront c (pushChannelToFront c st))
  = mruDmChannelIds (pushChannelToFront c st).
Proof.
  rewrite !pushChannelToFront_mru.
  rewrite (promoted_shape c (mruDmChannelIds st)).
  apply promoted_fixed.
  - apply Forall_take, filtered_all_ne.
  - rewrite length_take. unfold MAX_HISTORY. lia.
Qed.

Lemma split_off_member (c : string) (l : list string) :
  NoDup l → c ∈ l → l ≡ₚ c :: filter (λ id, id ≠ c) l.
Proof.
  induction 1 as [|y l Hy Hnd IH]; intros Hc;
    [by apply elem_of_nil in Hc|].
  destruct (decide (y = c)) as [->|Hne].
  - rewrite filter_cons_False by (intros Hc'; by apply Hc').
    by rewrite filter_ne_all by (by apply not_elem_all_ne).
  - apply elem_of_cons in Hc as [->|Hc]; [done|].
    rewrite filter_cons_True by done.
    rewrite (IH Hc) at 1. apply Permutation_swap.
Qed.

(** X2. Promoting an identifier that is already in a duplicate-free
    history list within the bound only reorders the list: the result
    has the same entries, the promoted one first and the others in the
    order they had. *)
Theorem promote_member_permutes (c : string) (st : State) :
  NoDup (mruDmChannelIds st) →
  length (mruDmChannelIds st) ≤ MAX_HISTORY →
  c ∈ mruDmChannelIds st →
  mruDmChannelIds (pushChannelToFront c st) ≡ₚ mruDmChannelIds st
  ∧ mruDmChannelIds (pushChannelToFront c st)
    = c :: filter (λ id, id ≠ c) (mruDmChannelIds st).
Proof.
  intros Hnd Hlen Hc. rewrite pushChannelToFront_mru.
  pose proof (split_off_member c _ Hnd Hc) as Hperm.
  assert (Heq : promoted c (mruDmChannelIds st)
                = c :: filter (λ id, id ≠ c) (mruDmChannelIds st)).
  { rewrite promoted_shape. rewrite take_ge; [done|].
    apply Permutation_length in Hperm. rewrite length_cons in Hperm.
    unfold MAX_HISTORY in *. lia. }
  split; [|exact Heq]. by rewrite Heq.
Qed.

Lemma promote_member_permutes_witness :
  let st := with_history ["A"; "B"; "C"]%string in
  mruDmChannelIds (pushChannelToFront "C"%string st) ≡ₚ mruDmChannelIds st
  ∧ mruDmChannelIds (pushChannelToFront "C"%string st)
    = "C"%string :: filter (λ id, id ≠ "C"%string) (mruDmChannelIds st).
Proof.
  apply (promote_member_permutes "C"%string
           (with_history ["A"; "B"; "C"]%string)).
  - apply (bool_decide_unpack _). vm_compute. exact I.
  - vm_compute. lia.
  - apply (bool_decide_unpack _). vm_compute. exact I.
Defined.

(** X3. Promoting an identifier that is not in the history list puts
    it in front of the whole list and keeps the first [MAX_HISTORY]
    entries: on a full list the last entry is dropped. *)
Theorem promote_absent_evicts_last (c : string) (st : State) :
  c ∉ mruDmChannelIds st →
  mruDmChannelIds (pushChannelToFront c st)
  = take MAX_HISTORY (c :: mruDmChannelIds st)
  ∧ (length (mruDmChannelIds st) = MAX_HISTORY →
     mruDmChannelIds (pushChannelToFront c st)
     = c :: removelast (mruDmChannelIds st)).
Proof.
  intros Hc. rewrite pushChannelToFront_mru, promoted_shape.
  rewrite filter_ne_all by (by apply not_elem_all_ne).
  split; [reflexivity|]. intros Hfull. f_equal.
  rewrite removelast_firstn_len. f_equal. rewrite Hfull.
  unfold MAX_HISTORY. lia.
Qed.

Lemma promote_absent_evicts_last_witness :
  let st := with_history ["A"; "B"]%string in
  mruDmChannelIds (pushChannelToFront "C"%string st)
  = take MAX_HISTORY ("C"%string :: mruDmChannelIds st)
  ∧ (length (mruDmChannelIds st) = MAX_HISTORY →
     mruDmChannelIds (pushChannelToFront "C"%string st)
     = "C"%string :: removelast (mruDmChannelIds st)).
Proof.
  apply (promote_absent_evicts_last "C"%string
           (with_history ["A"; "B"]%string)).
  apply (bool_decide_unpack _). vm_compute. exact I.
Defined.

(** ** [sanitizeHistory] as a function of its input *)

Lemma eligible_keeps (h : Host) (id : string) :
  eligible h id = true ↔ keeps h id.
Proof.
  unfold eligible, keeps. cbn [Js.falsy].
  rewrite !andb_true_iff, negb_true_iff, bool_decide_eq_false. tauto.
Qed.

Lemma filter_unseen_cons (seen : gset string) (id : string) (l : list string) :
  filter (λ x, x ∉ ({[id]} ∪ seen : gset string)) l
  = filter (λ x, x ∉ seen) (filter (λ y, y ≠ id) l).
Proof.
  rewrite list_filter_filter. apply list_filter_iff. intros x.
  rewrite not_elem_of_union, not_elem_of_singleton. tauto.
Qed.

Lemma filter_unseen_member (seen : gset string) (id : string) (l : list string) :
  id ∈ seen →
  filter (λ x, x ∉ seen) (filter (λ y, y ≠ id) l) = filter (λ x, x ∉ seen) l.
Proof.
  intros Hid. apply list_filter_filter_l. intros x Hx ->. by apply Hx.
Qed.

Lemma sanitize_loop_function (h : Host) (ids : list string)
    (seen : gset string) (result : list string) :
  length result < MAX_HISTORY →
  sanitize_loop h ids seen result
  = result
    ++ take (MAX_HISTORY - length result)
         (filter (λ x, x ∉ seen)
            (dedup_first (filter (λ id, eligible h id = true) ids))).
Proof.
  revert seen result. induction ids as [|id rest IH]; intros seen result Hlen.
  { cbn [sanitize_loop]. rewrite filter_nil. cbn [dedup_first].
    by rewrite filter_nil, take_nil, app_nil_r. }
  rewrite sanitize_loop_cons.
  destruct (eligible h id) eqn:Hel.
  - rewrite filter_cons_True by done. cbn [dedup_first].
    unfold eligible in Hel.
    apply andb_true_iff in Hel as [Hel Hdm].
    apply andb_true_iff in Hel as [Hf Hhas].
    apply negb_true_iff in Hf. rewrite Hf, Hhas, Hdm. cbn [orb negb].
    case_bool_decide as Hseen.
    + rewrite filter_cons_False by (intros Hn; by apply Hn).
      rewrite filter_unseen_member by done. by apply IH.
    + rewrite filter_cons_True by done.
      case_decide as Hfull.
      * rewrite length_app in Hfull. simpl in Hfull.
        replace (MAX_HISTORY - length result) with 1 by lia.
        by rewrite firstn_cons, take_0.
      * rewrite IH by lia. rewrite <- app_assoc. f_equal.
        rewrite length_app in *. simpl in *.
        replace (MAX_HISTORY - length result)
          with (S (MAX_HISTORY - (length result + 1))) by lia.
        rewrite firstn_cons. simpl. f_equal. f_equal.
        apply filter_unseen_cons.
  - rewrite filter_cons_False by (by rewrite Hel).
    rewrite <- (IH seen result Hlen).
    unfold eligible in Hel.
    destruct (Js.falsy (Some id)); [done|].
    destruct (hasChannel h id);
      [|by destruct (bool_decide (id ∈ seen))].
    destruct (isDirectMessageChannel h (Some id)); [done|].
    by destruct (bool_decide (id ∈ seen)).
Qed.

Lemma sanitizeHistory_as_function (h : Host) (ids : list string) :
  sanitizeHistory h ids
  = take MAX_HISTORY
      (dedup_first (filter (λ id, eligible h id = true) ids)).
Proof.
  unfold sanitizeHistory.
  rewrite sanitize_loop_function by (unfold MAX_HISTORY; simpl; lia).
  rewrite app_nil_l. simpl length. rewrite Nat.sub_0_r. f_equal.
  set (l := dedup_first _). clearbody l.
  induction l as [|x l IH]; [done|].
  rewrite filter_cons_True by apply not_elem_of_empty. by rewrite IH.
Qed.

(** X4. [sanitizeHistory] is the function that drops the identifiers
    that are empty, not in the channel store or not direct or group
    conversations, keeps the first occurrence of each remaining one,
    and cuts the result to the first [MAX_HISTORY] entries. *)
Theorem sanitizeHistory_function (h : Host) (ids : list string) :
  sanitizeHistory h ids
  = take MAX_HISTORY
      (dedup_first (filter (λ id, eligible h id = true) ids)).
Proof.
  unfold sanitizeHistory.
  rewrite sanitize_loop_function by (unfold MAX_HISTORY; simpl; lia).
  rewrite app_nil_l. simpl length. rewrite Nat.sub_0_r. f_equal.
  generalize (dedup_first (filter (λ id, eligible h id = true) ids)).
  intros l. induction l as [|x l IH]; [done|].
  rewrite filter_cons_True by apply not_elem_of_empty. by rewrite IH.
Qed.

Example dedup_first_sample :
  dedup_first ["a"; "b"; "a"; "c"; "b"]%string = ["a"; "b"; "c"]%string.
Proof. vm_compute. reflexivity. Qed.

Lemma dedup_first_NoDup (l : list string) :
  NoDup l → dedup_first l = l.
Proof.
  induction 1 as [|x l Hx _ IH]; [done|].
  cbn [dedup_first]. rewrite IH.
  by rewrite filter_ne_all by (by apply not_elem_all_ne).
Qed.

Lemma elem_of_dedup_first (x : string) (l : list string) :
  x ∈ dedup_first l ↔ x ∈ l.
Proof.
  induction l as [|y l IH]; [done|].
  cbn [dedup_first]. rewrite !elem_of_cons, list_elem_of_filter, IH.
  destruct (decide (x = y)); tauto.
Qed.

Lemma filter_eligible_all (h : Host) (l : list string) :
  Forall (keeps h) l → filter (λ id, eligible h id = true) l = l.
Proof.
  induction 1 as [|y l Hy _ IH]; [done|].
  rewrite filter_cons_True by (by apply eligible_keeps). by rewrite IH.
Qed.

Lemma sanitizeHistory_fixed (h : Host) (l : list string) :
  NoDup l → Forall (keeps h) l → length l ≤ MAX_HISTORY →
  sanitizeHistory h l = l.
Proof.
  intros Hnd Hk Hlen. rewrite sanitizeHistory_as_function.
  rewrite filter_eligible_all, dedup_first_NoDup by done.
  by apply take_ge.
Qed.

(** X5. Sanitizing a sanitized list changes nothing. *)
Theorem sanitizeHistory_idempotent (h : Host) (ids : list string) :
  sanitizeHistory h (sanitizeHistory h ids) = sanitizeHistory h ids.
Proof.
  destruct (sanitizeHistory_extends h ids) as (Hnd & Hk & _ & _ & Hlen).
  by apply sanitizeHistory_fixed.
Qed.

(** X6. As long as the result stays below [MAX_HISTORY] entries,
    [sanitizeHistory] loses no identifier it accepts: every input
    identifier that is non-empty, in the channel store and a direct or
    group conversation is in the result. *)
Theorem sanitizeHistory_complete (h : Host) (ids : list string) (id : string) :
  length (sanitizeHistory h ids) < MAX_HISTORY →
  id ∈ ids →
  keeps h id →
  id ∈ sanitizeHistory h ids.
Proof.
  rewrite sanitizeHistory_as_function. intros Hlen Hid Hk.
  rewrite length_take in Hlen. rewrite take_ge by lia.
  apply elem_of_dedup_first, list_elem_of_filter.
  split; [by apply eligible_keeps|done].
Qed.

Lemma sanitizeHistory_complete_witness :
  "C"%string
  ∈ sanitizeHistory (all_dms None defaults) ["B"; ""; "B"; "C"]%string.
Proof.
  apply (sanitizeHistory_complete (all_dms None defaults)
           ["B"; ""; "B"; "C"]%string "C"%string).
  - vm_compute. lia.
  - apply (bool_decide_unpack _). vm_compute. exact I.
  - split_and!; [discriminate|reflexivity|reflexivity].
Defined.

(** C3. For every input sequence, [sanitizeHistory] returns a list
    without repeated identifier, whose entries appear in the order of
    their first occurrences in the input, each of them non-empty,
    present in the channel store and a direct or group conversation,
    and of length at most [MAX_HISTORY].  It is the first
    [MAX_HISTORY] entries of the input filtered by these three tests
    with only the first occurrence of each identifier kept; so, as long
    as the result stays below [MAX_HISTORY] entries, every input
    identifier that passes the tests is in it. *)
Theorem sanitizeHistory_dedup_ordered_bounded (h : Host) (ids : list string) :
  NoDup (sanitizeHistory h ids)
  ∧ sublist (sanitizeHistory h ids) ids
  ∧ first_occurrence_order (sanitizeHistory h ids) ids
  ∧ (∀ id, id ∈ sanitizeHistory h ids →
       id ≠ EmptyString
       ∧ hasChannel h id = true
       ∧ isDirectMessageChannel h (Some id) = true)
  ∧ length (sanitizeHistory h ids) ≤ MAX_HISTORY
  ∧ sanitizeHistory h ids
    = take MAX_HISTORY
        (dedup_first (filter (λ id, eligible h id = true) ids))
  ∧ (length (sanitizeHistory h ids) < MAX_HISTORY →
     ∀ id, id ∈ ids →
       id ≠ EmptyString →
       hasChannel h id = true →
       isDirectMessageChannel h (Some id) = true →
       id ∈ sanitizeHistory h ids).
Proof.
  destruct (sanitizeHistory_extends h ids) as (Hnd & Hk & Hsub & Hord & Hlen).
  split_and!; try done.
  - intros id Hid. by apply (proj1 (Forall_forall _ _) Hk).
  - apply sanitizeHistory_as_function.
  - rewrite sanitizeHistory_as_function. intros Hbelow id Hid Hne Hhas Hdm.
    rewrite length_take in Hbelow. rewrite take_ge by lia.
    apply elem_of_dedup_first, list_elem_of_filter.
    split; [by apply eligible_keeps|done].
Qed.

(** ** Invariants of the reachable states *)

Lemma isDirectMessageChannel_nonempty (h : Host) (c : string) :
  isDirectMessageChannel h (Some c) = true → c ≠ EmptyString.
Proof.
  unfold isDirectMessageChannel. cbn [Js.falsy].
  case_bool_decide; [discriminate|done].
Qed.

Lemma selected_nonempty (st : State) (sel : string) :
  selected st = Some sel → sel ≠ EmptyString.
Proof.
  unfold selected.
  destruct (Js.index (cycleSnapshot st) (cycleIndex st)) as [x|]; [|done].
  cbn [Js.falsy]. case_bool_decide; [done|]. congruence.
Qed.

Lemma keeps_nonempty (h : Host) (l : list string) :
  Forall (keeps h) l → Forall (λ id, id ≠ EmptyString) l.
Proof. intros Hk. eapply Forall_impl; [exact Hk|]. by intros id (Hne & _). Qed.

Lemma history_ok_same (st st' : State) :
  mruDmChannelIds st' = mruDmChannelIds st → history_ok st → history_ok st'.
Proof. unfold history_ok. by intros ->. Qed.

Lemma history_ok_promoted (c : string) (st : State) :
  c ≠ EmptyString → history_ok st → history_ok (pushChannelToFront c st).
Proof.
  intros Hc (Hnd & Hlen & Hne). unfold history_ok.
  rewrite pushChannelToFront_mru. split_and!.
  - rewrite promoted_shape. apply NoDup_cons. split.
    + intros Hin. eapply elem_of_sublist in Hin; [|apply sublist_take].
      apply list_elem_of_filter in Hin. by destruct Hin.
    + eapply sublist_NoDup; [|apply sublist_take]. by apply NoDup_filter.
  - apply promoted_length.
  - rewrite promoted_shape. constructor; [done|].
    apply Forall_take. apply Forall_forall. intros x Hx.
    apply list_elem_of_filter in Hx as [_ Hx].
    by apply (proj1 (Forall_forall _ _) Hne).
Qed.

Lemma history_ok_sanitized (h : Host) (ids : list string) (st : State) :
  history_ok (set_mru (sanitizeHistory h ids) st).
Proof.
  destruct (sanitizeHistory_extends h ids) as (Hnd & Hk & _ & _ & Hlen).
  unfold history_ok. cbn [mruDmChannelIds set_mru].
  split_and!; [done|done|by eapply keeps_nonempty].
Qed.

Lemma history_ok_empty (st : State) : history_ok (set_mru [] st).
Proof.
  unfold history_ok. cbn [mruDmChannelIds set_mru].
  split_and!; [constructor|simpl; lia|constructor].
Qed.

Lemma endCycleSession_history_ok (h : Host) (st : State) :
  history_ok st → history_ok (endCycleSession h st).
Proof.
  intros Hok. destruct (isCyclingSessionActive st) eqn:Hact;
    [|by rewrite endCycleSession_idle].
  destruct (endCycleSession_active h st Hact) as (_ & _ & _ & _ & Hm & _).
  destruct (selected st) as [sel|] eqn:Hsel.
  - apply (history_ok_same (pushChannelToFront sel st)); [done|].
    apply history_ok_promoted; [by eapply selected_nonempty|done].
  - by apply (history_ok_same st).
Qed.

Lemma beginCycleSession_mru (h : Host) (st : State) :
  mruDmChannelIds (beginCycleSession h st) = mruDmChannelIds st.
Proof.
  destruct (isCyclingSessionActive st) eqn:Hact.
  - by rewrite beginCycleSession_active.
  - by destruct (beginCycleSession_idle h st Hact) as (_ & _ & _ & -> & _).
Qed.

Lemma handle_history_ok (h : Host) (sig : Signal) (st : State) :
  history_ok st → history_ok (handle h sig st).
Proof.
  intros Hok. destruct sig as [|d| |e|e|c|g|saved| |]; cbn [handle].
  - apply (history_ok_same st); [apply beginCycleSession_mru|done].
  - destruct (stepCycle_frame h d st) as (Hm & _).
    by apply (history_ok_same st).
  - by apply endCycleSession_history_ok.
  - unfold onKeyDown.
    destruct (negb (ctrlKey e || IS_MAC h && metaKey e)); [done|].
    case_bool_decide; [|done].
    set (st1 := if negb (isCyclingSessionActive st) then _ else _).
    assert (Hm1 : mruDmChannelIds st1 = mruDmChannelIds st).
    { subst st1. destruct (negb (isCyclingSessionActive st)); [|done].
      apply beginCycleSession_mru. }
    destruct (stepCycle_frame h (if shiftKey e then Backward else Forward) st1)
      as (Hm & _).
    apply (history_ok_same st); [by rewrite Hm|done].
  - unfold onKeyUp.
    destruct (_ || _); [|done].
    destruct (negb (ctrlKey e || metaKey e)); [|done].
    by apply endCycleSession_history_ok.
  - unfold CHANNEL_SELECT.
    destruct (suppressMruWhileCycling st); [done|].
    destruct c as [c|]; [|done].
    destruct (Js.falsy (Some c)); [done|].
    destruct (isDirectMessageChannel h (Some c)) eqn:Hdm; cbn [negb]; [|done].
    apply history_ok_promoted; [by eapply isDirectMessageChannel_nonempty|done].
  - destruct (GUILD_SELECT_frame h g st) as (Hm & _).
    by apply (history_ok_same st).
  - unfold start.
    assert (Hloaded : history_ok
      (set_mru (match saved with
                | Some ids => sanitizeHistory h ids
                | None => []
                end) st)).
    { destruct saved; [apply history_ok_sanitized|apply history_ok_empty]. }
    destruct (getChannelId h) as [c|]; [|done].
    destruct (isDirectMessageChannel h (Some c)) eqn:Hdm; [|done].
    apply history_ok_promoted; [by eapply isDirectMessageChannel_nonempty|done].
  - unfold stop. apply (history_ok_same st); [|done].
    destruct (visualStyle (store h)); try done.
    by destruct (unmountOverlay_frame
                   (set_toast false
                      (set_index (-1)
                         (set_snapshot [] (set_flags false false st)))))
      as (-> & _).
  - apply (history_ok_same (set_mru [] st)); [done|apply history_ok_empty].
Qed.

(** X7. In every state the plugin can reach from its initial state,
    whatever signals arrive and whatever the host answers, the history
    list has no duplicate, at most [MAX_HISTORY] entries and no empty
    identifier; every handler keeps these three properties. *)
Theorem history_invariant :
  (∀ sigs, history_ok (run sigs initial))
  ∧ (∀ h sig st, history_ok st → history_ok (handle h sig st)).
Proof.
  split; [|apply handle_history_ok].
  assert (Hrun : ∀ sigs st, history_ok st → history_ok (run sigs st)).
  { induction sigs as [|[h sig] sigs IH]; intros st Hok; [done|].
    apply IH. by apply handle_history_ok. }
  intros sigs. apply Hrun. apply (history_ok_empty initial).
Qed.

Lemma history_invariant_witness :
  history_ok
    (handle (all_dms (Some "A"%string) defaults)
       (SigStart (Some ["B"; "B"; ""; "C"]%string)) initial).
Proof.
  apply (proj2 history_invariant). apply (history_ok_empty initial).
Defined.

Lemma session_ok_same (st st' : State) :
  isCyclingSessionActive st' = isCyclingSessionActive st →
  cycleSnapshot st' = cycleSnapshot st →
  cycleIndex st' = cycleIndex st →
  session_ok st → session_ok st'.
Proof. unfold session_ok. by intros -> -> ->. Qed.

Lemma session_ok_closed (st : State) :
  isCyclingSessionActive st = false →
  cycleSnapshot st = [] →
  cycleIndex st = (-1)%Z →
  session_ok st.
Proof.
  intros Ha Hs Hi. unfold session_ok. rewrite Ha, Hs, Hi.
  split_and!; [constructor|simpl; lia|constructor|done|done].
Qed.

Lemma beginCycleSession_session_ok (h : Host) (st : State) :
  session_ok st → session_ok (beginCycleSession h st).
Proof.
  intros Hok. destruct (isCyclingSessionActive st) eqn:Hact;
    [by rewrite beginCycleSession_active|].
  destruct (beginCycleSession_idle h st Hact) as (Ha & _ & Hi & _ & _ & Hk).
  pose proof (beginCycleSession_snapshot h st Hact) as Hsnap.
  destruct (sanitizeHistory_extends h
              ((if isDirectMessageChannel h (getChannelId h)
                then match getChannelId h with Some c => [c] | None => [] end
                else []) ++ mruDmChannelIds st))
    as (Hnd & _ & _ & _ & Hlen).
  rewrite <- Hsnap in Hnd, Hlen.
  unfold session_ok. rewrite Ha, Hi.
  repeat (split; [done || by eapply keeps_nonempty|]).
  destruct (cycleSnapshot (beginCycleSession h st)) as [|x l];
    [right; by split; [|left]|left].
  rewrite length_cons. lia.
Qed.

Lemma stepCycle_session_ok (h : Host) (d : Direction) (st : State) :
  session_ok st → session_ok (stepCycle h d st).
Proof.
  intros Hok. destruct (step_moves st) eqn:Hmoves;
    [|by rewrite stepCycle_idle].
  unfold step_moves in Hmoves. apply andb_true_iff in Hmoves as [Hact Hlen].
  apply bool_decide_eq_true in Hlen.
  destruct Hok as (Hnd & Hbound & Hne & Hcur). rewrite Hact in Hcur.
  destruct Hcur as [Hcur|[Hnil _]]; [|rewrite Hnil in Hlen; simpl in Hlen; lia].
  destruct (stepCycle_frame h d st) as (_ & Ha & _ & Hs & _).
  assert (Hi : (0 ≤ cycleIndex (stepCycle h d st)
                < Z.of_nat (length (cycleSnapshot st)))%Z).
  { rewrite stepCycle_index. unfold step_moves.
    rewrite Hact, bool_decide_true by done. cbn [andb].
    unfold Js.rem. rewrite Z.rem_mod_nonneg by (destruct d; simpl; lia).
    apply Z.mod_pos_bound. lia. }
  unfold session_ok. rewrite Ha, Hs, Hact.
  repeat (split; [done|]). by left.
Qed.

Lemma endCycleSession_session_ok (h : Host) (st : State) :
  session_ok st → session_ok (endCycleSession h st).
Proof.
  intros Hok. destruct (isCyclingSessionActive st) eqn:Hact;
    [|by rewrite endCycleSession_idle].
  destruct (endCycleSession_active h st Hact) as (Ha & _ & Hs & Hi & _).
  by apply session_ok_closed.
Qed.

Lemma stop_session (h : Host) (st : State) :
  isCyclingSessionActive (stop h st) = false
  ∧ cycleSnapshot (stop h st) = []
  ∧ cycleIndex (stop h st) = (-1)%Z
  ∧ mruDmChannelIds (stop h st) = mruDmChannelIds st
  ∧ promotions (trace (stop h st)) = promotions (trace st).
Proof.
  unfold stop. destruct (visualStyle (store h)); try done.
  by destruct (unmountOverlay_frame
                 (set_toast false
                    (set_index (-1)
                       (set_snapshot [] (set_flags false false st)))))
    as (-> & -> & _ & -> & -> & ->).
Qed.

Lemma handle_session_ok (h : Host) (sig : Signal) (st : State) :
  session_ok st → session_ok (handle h sig st).
Proof.
  intros Hok. destruct sig as [|d| |e|e|c|g|saved| |]; cbn [handle].
  - by apply beginCycleSession_session_ok.
  - by apply stepCycle_session_ok.
  - by apply endCycleSession_session_ok.
  - unfold onKeyDown.
    destruct (negb (ctrlKey e || IS_MAC h && metaKey e)); [done|].
    case_bool_decide; [|done].
    apply stepCycle_session_ok.
    destruct (negb (isCyclingSessionActive st)); [|done].
    by apply beginCycleSession_session_ok.
  - unfold onKeyUp.
    destruct (_ || _); [|done].
    destruct (negb (ctrlKey e || metaKey e)); [|done].
    by apply endCycleSession_session_ok.
  - unfold CHANNEL_SELECT.
    destruct (suppressMruWhileCycling st); [done|].
    destruct c as [c|]; [|done].
    destruct (Js.falsy (Some c)); [done|].
    by destruct (negb (isDirectMessageChannel h (Some c))).
  - destruct (GUILD_SELECT_frame h g st) as (_ & Ha & _ & Hs & Hi & _).
    by apply (session_ok_same st).
  - unfold start. destruct (getChannelId h) as [c|]; [|done].
    by destruct (isDirectMessageChannel h (Some c)).
  - destruct (stop_session h st) as (Ha & Hs & Hi & _).
    by apply session_ok_closed.
  - destruct Hok as (_ & _ & _ & Hcur).
    unfold session_ok. cbn.
    split_and!; [constructor|lia|constructor|].
    destruct (isCyclingSessionActive st); [right; by split; [|right]|done].
Qed.

(** X8. In every state the plugin can reach from its initial state the
    session data is coherent: the snapshot has no duplicate, at most
    [MAX_HISTORY] entries and no empty identifier; while the session is
    active the cursor is the index of a snapshot entry whenever the
    snapshot has one; while it is idle the snapshot is empty and the
    cursor is the sentinel -1.  Every handler keeps this. *)
Theorem session_invariant :
  (∀ sigs, session_ok (run sigs initial))
  ∧ (∀ h sig st, session_ok st → session_ok (handle h sig st)).
Proof.
  split; [|apply handle_session_ok].
  assert (Hrun : ∀ sigs st, session_ok st → session_ok (run sigs st)).
  { induction sigs as [|[h sig] sigs IH]; intros st Hok; [done|].
    apply IH. by apply handle_session_ok. }
  intros sigs. apply Hrun. by apply session_ok_closed.
Qed.

Lemma session_invariant_witness :
  session_ok
    (handle (all_dms (Some "A"%string) defaults) (SigStep Forward)
       (handle (all_dms (Some "A"%string) defaults) SigBegin
          (with_history ["B"; "C"]%string))).
Proof.
  apply (proj2 session_invariant). apply (proj2 session_invariant).
  by apply session_ok_closed.
Defined.

(** ** Re-entrancy and composition of the session operations *)

(** X9. A second begin, under any host, changes nothing, and neither
    does a second end: duplicate gesture-begin and gesture-end signals
    are absorbed. *)
Theorem begin_end_absorb_repeats (h1 h2 : Host) (st : State) :
  beginCycleSession h2 (beginCycleSession h1 st) = beginCycleSession h1 st
  ∧ endCycleSession h2 (endCycleSession h1 st) = endCycleSession h1 st.
Proof.
  split.
  - apply beginCycleSession_active.
    destruct (isCyclingSessionActive st) eqn:Hact.
    + by rewrite beginCycleSession_active.
    + by destruct (beginCycleSession_idle h1 st Hact) as (-> & _).
  - apply endCycleSession_idle.
    destruct (isCyclingSessionActive st) eqn:Hact.
    + by destruct (endCycleSession_active h1 st Hact) as (-> & _).
    + by rewrite endCycleSession_idle.
Qed.

(** X10. In an active session with at least two snapshot entries and
    the cursor on one of them, a forward step followed by a backward
    step, or a backward step followed by a forward step, brings the
    cursor back where it was, at both ends of the snapshot too. *)
Theorem steps_cancel (h1 h2 : Host) (st : State) :
  isCyclingSessionActive st = true →
  2 ≤ length (cycleSnapshot st) →
  (0 ≤ cycleIndex st < Z.of_nat (length (cycleSnapshot st)))%Z →
  cycleIndex (stepCycle h2 Backward (stepCycle h1 Forward st)) = cycleIndex st
  ∧ cycleIndex (stepCycle h2 Forward (stepCycle h1 Backward st))
    = cycleIndex st.
Proof.
  intros Hact Hlen Hidx.
  assert (Hboth : ∀ d d', (delta d + delta d' = 0)%Z →
    cycleIndex (stepCycle h2 d' (stepCycle h1 d st)) = cycleIndex st).
  { intros d d' Hdd.
    destruct (stepCycle_frame h1 d st) as (_ & Ha & _ & Hs & _).
    pose proof (stepCycle_index_mod h1 d st Hact Hlen Hidx) as Hi.
    rewrite stepCycle_index_mod; rewrite ?Ha, ?Hs, ?Hi; try done.
    - set (n := Z.of_nat (length (cycleSnapshot st))) in *.
      rewrite <- Z.add_assoc, Zplus_mod_idemp_l.
      replace (cycleIndex st + delta d + n + (delta d' + n))%Z
        with (cycleIndex st + 2 * n)%Z by lia.
      rewrite Z_mod_plus_full. by apply Z.mod_small.
    - apply Z.mod_pos_bound. lia. }
  split; by apply Hboth.
Qed.

Lemma steps_cancel_witness :
  let st := set_index 2 (set_snapshot ["A"; "B"; "C"]%string
                           (set_flags true true initial)) in
  let h := all_dms None defaults in
  cycleIndex (stepCycle h Backward (stepCycle h Forward st)) = cycleIndex st
  ∧ cycleIndex (stepCycle h Forward (stepCycle h Backward st)) = cycleIndex st.
Proof.
  apply (steps_cancel (all_dms None defaults) (all_dms None defaults)
           (set_index 2 (set_snapshot ["A"; "B"; "C"]%string
                           (set_flags true true initial))));
    [reflexivity | simpl; lia | simpl; lia].
Defined.

(** ** The anchor and the quick toggle *)

Lemma sanitizeHistory_head (h : Host) (c : string) (l : list string) :
  keeps h c → head (sanitizeHistory h (c :: l)) = Some c.
Proof.
  intros Hk. rewrite sanitizeHistory_as_function.
  rewrite filter_cons_True by (by apply eligible_keeps).
  reflexivity.
Qed.

(** X11. When a gesture begins from an idle session while the selected
    conversation is one [sanitizeHistory] accepts, that conversation is
    the first snapshot entry and the cursor is on it; ending the
    gesture without an effective step promotes it, exactly as a direct
    promote would. *)
Theorem gesture_anchor (h he : Host) (c : string) (st : State) :
  isCyclingSessionActive st = false →
  getChannelId h = Some c →
  keeps h c →
  head (cycleSnapshot (beginCycleSession h st)) = Some c
  ∧ selected (beginCycleSession h st) = Some c
  ∧ mruDmChannelIds (endCycleSession he (beginCycleSession h st))
    = mruDmChannelIds (pushChannelToFront c st).
Proof.
  intros Hidle Hcur Hk.
  assert (Hhead : head (cycleSnapshot (beginCycleSession h st)) = Some c).
  { rewrite beginCycleSession_snapshot by done. rewrite Hcur.
    destruct Hk as (Hne & Hhas & Hdm). rewrite Hdm.
    by apply sanitizeHistory_head. }
  destruct (beginCycleSession_idle h st Hidle)
    as (Hact & _ & Hidx & Hmru & _ & _).
  assert (Hsel : selected (beginCycleSession h st) = Some c).
  { unfold selected. rewrite Hidx.
    destruct (cycleSnapshot (beginCycleSession h st)) as [|x l];
      [done|]. injection Hhead as ->.
    change (Js.index (c :: l) 0) with (Some c). cbn [Js.falsy].
    destruct Hk as (Hne & _). by rewrite bool_decide_false. }
  split_and!; [done|done|].
  destruct (endCycleSession_active he _ Hact) as (_ & _ & _ & _ & Hm & _).
  by rewrite Hm, Hsel, Hmru.
Qed.

Lemma gesture_anchor_witness :
  let h := all_dms (Some "A"%string) defaults in
  let st := with_history ["B"; "C"]%string in
  head (cycleSnapshot (beginCycleSession h st)) = Some "A"%string
  ∧ selected (beginCycleSession h st) = Some "A"%string
  ∧ mruDmChannelIds (endCycleSession h (beginCycleSession h st))
    = mruDmChannelIds (pushChannelToFront "A"%string st).
Proof.
  apply (gesture_anchor (all_dms (Some "A"%string) defaults)
           (all_dms (Some "A"%string) defaults) "A"%string
           (with_history ["B"; "C"]%string));
    [reflexivity | reflexivity |].
  split_and!; [discriminate|reflexivity|reflexivity].
Defined.

Lemma sanitizeHistory_anchor_in_front (h : Host) (c : string) (l : list string) :
  NoDup (c :: l) → Forall (keeps h) (c :: l) → length (c :: l) ≤ MAX_HISTORY →
  sanitizeHistory h (c :: c :: l) = c :: l.
Proof.
  intros Hnd Hk Hlen. rewrite sanitizeHistory_as_function.
  inversion Hk as [|? ? Hkc Hkl]; subst.
  rewrite !filter_cons_True by (by apply eligible_keeps).
  rewrite filter_eligible_all by done.
  apply NoDup_cons in Hnd as [Hc Hnd].
  cbn [dedup_first]. rewrite dedup_first_NoDup by done.
  rewrite filter_cons_False by (intros Hn; by apply Hn).
  rewrite (filter_ne_all c l) by (by apply not_elem_all_ne).
  rewrite filter_ne_all by (by apply not_elem_all_ne).
  by apply take_ge.
Qed.

(** X12. The quick toggle.  The history list starts with the selected
    conversation [c] followed by [p], has no duplicate, is within the
    bound and holds only conversations [sanitizeHistory] accepts.  Then
    one Ctrl+Tab key-down followed by the key-up of Control, from an
    idle session, switches the first two entries: the history list
    becomes [p], [c] and the rest unchanged, and the session is idle
    again. *)
Theorem quick_toggle (h1 h2 : Host) (down up : KeyboardEvent)
    (c p : string) (rest : list string) (st : State) :
  isCyclingSessionActive st = false →
  mruDmChannelIds st = c :: p :: rest →
  NoDup (c :: p :: rest) →
  length (c :: p :: rest) ≤ MAX_HISTORY →
  Forall (keeps h1) (c :: p :: rest) →
  getChannelId h1 = Some c →
  ctrlKey down = true → key down = "Tab"%string → shiftKey down = false →
  key up = "Control"%string → ctrlKey up = false → metaKey up = false →
  mruDmChannelIds (onKeyUp h2 up (onKeyDown h1 down st)) = p :: c :: rest
  ∧ isCyclingSessionActive (onKeyUp h2 up (onKeyDown h1 down st)) = false.
Proof.
  intros Hidle Hmru Hnd Hlen Hk Hcur Hctrl Htab Hshift Hkey Hup Hmeta.
  unfold onKeyDown, onKeyUp.
  rewrite Hctrl, Htab, Hshift, Hkey, Hup, Hmeta, Hidle.
  cbn [orb negb].
  rewrite (bool_decide_true ("Tab"%string = "Tab"%string)) by done.
  rewrite (bool_decide_true ("Control"%string = "Control"%string)) by done.
  cbn [orb negb].
  set (s0 := beginCycleSession h1 st).
  assert (Hsnap0 : cycleSnapshot s0 = c :: p :: rest).
  { subst s0. rewrite beginCycleSession_snapshot by done.
    rewrite Hcur, Hmru.
    inversion Hk as [|? ? (_ & _ & Hdm) _]; subst. rewrite Hdm.
    by apply sanitizeHistory_anchor_in_front. }
  destruct (beginCycleSession_idle h1 st Hidle)
    as (Hact0 & _ & Hidx0 & Hmru0 & _ & _).
  fold s0 in Hact0, Hidx0, Hmru0.
  set (s1 := stepCycle h1 Forward s0).
  destruct (stepCycle_frame h1 Forward s0) as (Hm1 & Hact1 & _ & Hsnap1 & _).
  fold s1 in Hm1, Hact1, Hsnap1.
  assert (Hidx1 : cycleIndex s1 = 1%Z).
  { subst s1.
    rewrite stepCycle_index_mod; rewrite ?Hsnap0, ?Hidx0; try done;
      try (simpl; lia).
    simpl delta. rewrite !length_cons.
    replace (0 + 1 + Z.of_nat (S (S (length rest))))%Z
      with (1 + 1 * Z.of_nat (S (S (length rest))))%Z by lia.
    rewrite Z_mod_plus_full. apply Z.mod_small. lia. }
  assert (Hp : p ≠ EmptyString).
  { inversion Hk as [|? ? _ Hk']; subst.
    inversion Hk' as [|? ? (Hne & _) _]; subst. done. }
  assert (Hsel : selected s1 = Some p).
  { unfold selected. rewrite Hsnap1, Hsnap0, Hidx1.
    change (Js.index (c :: p :: rest) 1) with (Some p). cbn [Js.falsy].
    by rewrite bool_decide_false. }
  rewrite Hact0 in Hact1.
  destruct (endCycleSession_active h2 s1 Hact1) as (Ha & _ & _ & _ & Hm & _).
  split; [|exact Ha].
  rewrite Hm, Hsel, Hm1, Hmru0, Hmru, promoted_shape.
  apply NoDup_cons in Hnd as [Hc Hnd].
  apply NoDup_cons in Hnd as [Hprest _].
  assert (Hcp : c ≠ p).
  { intros ->. apply Hc. by left. }
  rewrite filter_cons_True by done.
  rewrite filter_cons_False by (intros Hn; by apply Hn).
  rewrite filter_ne_all by (by apply not_elem_all_ne).
  rewrite take_ge; [done|]. rewrite !length_cons in *.
  unfold MAX_HISTORY in *. lia.
Qed.

Lemma quick_toggle_witness :
  let h := all_dms (Some "A"%string) defaults in
  let down := {| key := "Tab"%string; ctrlKey := true;
                 metaKey := false; shiftKey := false |} in
  let up := {| key := "Control"%string; ctrlKey := false;
               metaKey := false; shiftKey := false |} in
  let st := with_history ["A"; "B"; "C"]%string in
  mruDmChannelIds (onKeyUp h up (onKeyDown h down st))
  = ["B"; "A"; "C"]%string
  ∧ isCyclingSessionActive (onKeyUp h up (onKeyDown h down st)) = false.
Proof.
  apply (quick_toggle
           (all_dms (Some "A"%string) defaults)
           (all_dms (Some "A"%string) defaults)
           {| key := "Tab"%string; ctrlKey := true;
              metaKey := false; shiftKey := false |}
           {| key := "Control"%string; ctrlKey := false;
              metaKey := false; shiftKey := false |}
           "A"%string "B"%string ["C"%string]
           (with_history ["A"; "B"; "C"]%string));
    try reflexivity.
  - apply (bool_decide_unpack _). vm_compute. exact I.
  - vm_compute. lia.
  - repeat constructor; discriminate.
Defined.

(** ** Stopping and starting the plugin *)

(** X13. Stopping the plugin, even in the middle of a gesture, abandons
    the gesture without committing it: the session is idle with an
    empty snapshot and the sentinel cursor, the history list is the one
    from before, [pushChannelToFront] is not called, and a later end or
    step does nothing. *)
Theorem stop_abandons_gesture (h h' : Host) (st : State) :
  isCyclingSessionActive (stop h st) = false
  ∧ suppressMruWhileCycling (stop h st) = false
  ∧ cycleSnapshot (stop h st) = []
  ∧ cycleIndex (stop h st) = (-1)%Z
  ∧ mruDmChannelIds (stop h st) = mruDmChannelIds st
  ∧ promotions (trace (stop h st)) = promotions (trace st)
  ∧ endCycleSession h' (stop h st) = stop h st
  ∧ (∀ d, stepCycle h' d (stop h st) = stop h st).
Proof.
  destruct (stop_session h st) as (Ha & Hs & Hi & Hm & Hp).
  destruct (stop_flags h st) as (_ & Hsup).
  split_and!; try done.
  - by apply endCycleSession_idle.
  - intros d. by apply stepCycle_idle, step_moves_empty.
Qed.

Lemma elem_of_promoted (c x : string) (l : list string) :
  x ∈ promoted c l → x = c ∨ x ∈ l.
Proof.
  rewrite promoted_shape. intros [->|Hx]%elem_of_cons; [by left|right].
  eapply elem_of_sublist in Hx; [|apply sublist_take].
  by apply list_elem_of_filter in Hx as [_ Hx].
Qed.

(** X14. After [start] the history list depends on the saved value and
    on the host only, not on what the list held before; it has no
    duplicate and at most [MAX_HISTORY] entries, each of them a
    non-empty identifier of a direct or group conversation; the
    selected conversation, when it is one, is the first entry; and a
    saved value that is not an array counts as an empty list. *)
Theorem start_loads_history (h : Host) (saved : option (list string))
    (st : State) :
  mruDmChannelIds (start h saved st) = mruDmChannelIds (start h saved initial)
  ∧ NoDup (mruDmChannelIds (start h saved st))
  ∧ length (mruDmChannelIds (start h saved st)) ≤ MAX_HISTORY
  ∧ Forall (λ id, id ≠ EmptyString
                  ∧ isDirectMessageChannel h (Some id) = true)
      (mruDmChannelIds (start h saved st))
  ∧ (isDirectMessageChannel h (getChannelId h) = true →
     head (mruDmChannelIds (start h saved st)) = getChannelId h)
  ∧ mruDmChannelIds (start h None st)
    = (if isDirectMessageChannel h (getChannelId h)
       then match getChannelId h with Some c => [c] | None => [] end
       else []).
Proof.
  set (loaded := match saved with
                 | Some ids => sanitizeHistory h ids
                 | None => []
                 end).
  assert (Hok : ∀ s, history_ok (set_mru loaded s)).
  { intros s. subst loaded.
    destruct saved; [apply history_ok_sanitized|apply history_ok_empty]. }
  assert (Hdm : Forall (λ id, id ≠ EmptyString
                              ∧ isDirectMessageChannel h (Some id) = true)
                  loaded).
  { subst loaded. destruct saved as [ids|]; [|constructor].
    eapply Forall_impl; [apply sanitizeHistory_keeps|].
    by intros id (Hne & _ & Hd). }
  unfold start. fold loaded.
  destruct (getChannelId h) as [c|] eqn:Hcur.
  - destruct (isDirectMessageChannel h (Some c)) eqn:Hc.
    + pose proof (isDirectMessageChannel_nonempty h c Hc) as Hne.
      destruct (history_ok_promoted c _ Hne (Hok st)) as (Hnd & Hlen & _).
      split_and!; try done.
      * rewrite pushChannelToFront_mru. apply Forall_forall. intros x Hx.
        apply elem_of_promoted in Hx as [->|Hx]; [done|].
        by apply (proj1 (Forall_forall _ _) Hdm).
      * intros _. rewrite pushChannelToFront_mru. apply promoted_head.
    + destruct (Hok st) as (Hnd & Hlen & _). split_and!; done.
  - destruct (Hok st) as (Hnd & Hlen & _). split_and!; done.
Qed.

Lemma start_loads_history_witness :
  let h := all_dms (Some "A"%string) defaults in
  head (mruDmChannelIds (start h (Some ["B"; "B"; ""; "A"]%string) initial))
  = Some "A"%string
  ∧ mruDmChannelIds (start h (Some ["B"; "B"; ""; "A"]%string) initial)
    = ["A"; "B"]%string.
Proof.
  destruct (start_loads_history (all_dms (Some "A"%string) defaults)
              (Some ["B"; "B"; ""; "A"]%string) initial)
    as (_ & _ & _ & _ & Hhead & _).
  split; [apply Hhead; reflexivity|vm_compute; reflexivity].
Defined.

(** ** What the overlay shows *)

Lemma length_slice_le {A} (l : list A) (a b : Z) :
  (0 ≤ a)%Z → (0 ≤ b)%Z →
  length (Js.slice l a b) ≤ Z.to_nat (b - a).
Proof.
  intros Ha Hb. unfold Js.slice, Js.rel_index.
  destruct (Z.ltb_spec a 0); [lia|]. destruct (Z.ltb_spec b 0); [lia|].
  rewrite length_take. lia.
Qed.

Lemma overlayPageCount_range (s : Settings) (snapshot : list string) (idx : Z) :
  (1 ≤ overlayPageCount s snapshot idx ≤ 2)%Z.
Proof.
  unfold overlayPageCount. destruct (overlayMode s); [|lia].
  case_decide; lia.
Qed.

Lemma pageSize_range (s : Settings) : (1 ≤ pageSize s ≤ 7)%Z.
Proof. unfold pageSize, maxCount. destruct (overlayMode s); lia. Qed.

Lemma overlayCurrentPage_range (s : Settings) (snapshot : list string) (idx : Z) :
  (0 ≤ overlayCurrentPage s snapshot idx ≤ 1)%Z.
Proof.
  unfold overlayCurrentPage. destruct (overlayMode s) eqn:Hmode; [|lia].
  pose proof (overlayPageCount_range s snapshot idx) as Hpc.
  pose proof (pageSize_range s) as Hps.
  unfold Js.floor_div.
  assert (0 ≤ (if decide (0 ≤ idx)%Z then idx else 0%Z) / pageSize s)%Z
    by (apply Z.div_pos; [case_decide; lia|lia]).
  lia.
Qed.

(** X15. In either overlay mode, for every snapshot, cursor and row
    length, the overlay shows at most [pageSize] cards, hence never
    more than 7, on page 0 or 1 of 1 or 2 pages. *)
Theorem overlay_card_bounds (s : Settings) (snapshot : list string) (idx : Z) :
  let d := OverlayContent s snapshot idx in
  length (pageItems d) ≤ Z.to_nat (pageSize s)
  ∧ length (pageItems d) ≤ 7
  ∧ (0 ≤ currentPage d < pageCount d)%Z
  ∧ (1 ≤ pageCount d ≤ 2)%Z.
Proof.
  cbv zeta. unfold OverlayContent. cbn [pageItems currentPage pageCount].
  pose proof (overlayPageCount_range s snapshot idx) as Hpc.
  pose proof (overlayCurrentPage_range s snapshot idx) as Hcp.
  pose proof (pageSize_range s) as Hps.
  assert (Hlen : length (overlayPageItems s snapshot idx)
                 ≤ Z.to_nat (pageSize s)).
  { unfold overlayPageItems.
    etrans; [apply length_slice_le; nia|]. nia. }
  rewrite length_fmap.
  assert (overlayCurrentPage s snapshot idx
          < overlayPageCount s snapshot idx)%Z.
  { unfold overlayCurrentPage. destruct (overlayMode s); lia. }
  split_and!; lia.
Qed.

Lemma index_nat {A} (l : list A) (i : nat) : Js.index l (Z.of_nat i) = l !! i.
Proof.
  unfold Js.index. destruct (Z.ltb_spec (Z.of_nat i) 0); [lia|].
  by rewrite Nat2Z.id.
Qed.

Lemma workingList_lookup (snapshot : list string) (rl : Z) (i : nat) :
  i < 2 * RowSpec.pageSize rl →
  RowSpec.workingList snapshot rl !! i = snapshot !! i.
Proof.
  intros Hi. unfold RowSpec.workingList.
  destruct (Nat.le_gt_cases (length snapshot) i) as [Hout|Hin].
  - rewrite (lookup_ge_None_2 snapshot) by done.
    apply lookup_ge_None_2. rewrite length_take. lia.
  - apply lookup_take_lt. lia.
Qed.

Lemma window_covers_cursor (snapshot : list string) (cursor : nat) (rl : Z) :
  cursor < length snapshot →
  cursor < 2 * RowSpec.pageSize rl →
  RowSpec.window_start snapshot cursor rl ≤ cursor
  ∧ cursor < RowSpec.window_stop snapshot cursor rl.
Proof.
  intros Hin Hfirst.
  unfold RowSpec.window_start, RowSpec.window_stop, RowSpec.currentPage,
    RowSpec.pageCount.
  assert (Hps : 3 ≤ RowSpec.pageSize rl) by (unfold RowSpec.pageSize; lia).
  assert (Hwl : length (RowSpec.workingList snapshot rl)
                = Nat.min (2 * RowSpec.pageSize rl) (length snapshot)).
  { unfold RowSpec.workingList. rewrite length_take. lia. }
  rewrite Hwl. set (ps := RowSpec.pageSize rl) in *.
  destruct (Nat.lt_ge_cases cursor ps) as [Hlow|Hhigh].
  - rewrite (Nat.div_small cursor ps) by done.
    rewrite Nat.min_0_r. simpl. lia.
  - assert (Hq : cursor / ps = 1).
    { symmetry. apply (Nat.div_unique cursor ps 1 (cursor - ps)); lia. }
    rewrite Hq. rewrite decide_True by lia. simpl. lia.
Qed.

(** X16. In row mode, while the cursor is on one of the first
    [2 * pageSize] snapshot entries, the page the overlay shows holds
    the entry under the cursor, as a card marked active. *)
Theorem active_card_shown (s : Settings) (snapshot : list string)
    (cursor : nat) (x : string) :
  overlayMode s = OmRow →
  snapshot !! cursor = Some x →
  (Z.of_nat cursor < 2 * pageSize s)%Z →
  (Some x, true)
  ∈ pageItems (OverlayContent s snapshot (Z.of_nat cursor)).
Proof.
  intros Hrow Hx Hfirst.
  unfold OverlayContent. cbn [pageItems].
  rewrite index_nat, Hx, row_pageItems by done.
  rewrite row_pageSize in Hfirst by done.
  assert (Hin : cursor < length snapshot) by (by eapply lookup_lt_Some).
  destruct (window_covers_cursor snapshot cursor (overlayRowLength s))
    as [Hstart Hstop]; [done|lia|].
  apply list_elem_of_fmap.
  exists (Some x). split; [by rewrite bool_decide_true|].
  apply list_elem_of_fmap. exists x. split; [done|].
  apply list_elem_of_lookup.
  exists (cursor - RowSpec.window_start snapshot cursor (overlayRowLength s)).
  unfold RowSpec.window.
  rewrite lookup_take_lt by lia. rewrite lookup_drop.
  replace (RowSpec.window_start snapshot cursor (overlayRowLength s)
           + (cursor
              - RowSpec.window_start snapshot cursor (overlayRowLength s)))
    with cursor by lia.
  rewrite workingList_lookup by lia. exact Hx.
Qed.

Lemma active_card_shown_witness :
  (Some "g"%string, true)
  ∈ pageItems
      (OverlayContent defaults
         ["a"; "b"; "c"; "d"; "e"; "f"; "g"; "h"]%string 6).
Proof.
  apply (active_card_shown defaults
           ["a"; "b"; "c"; "d"; "e"; "f"; "g"; "h"]%string 6 "g"%string);
    [reflexivity | reflexivity | vm_compute; reflexivity].
Defined.

(** X17. In row mode, once the cursor is past the first
    [2 * pageSize] entries of a duplicate-free snapshot, no card of the
    overlay is marked active: the entry under the cursor is beyond the
    two pages the overlay can show. *)
Theorem active_card_hidden (s : Settings) (snapshot : list string)
    (cursor : nat) :
  overlayMode s = OmRow →
  NoDup snapshot →
  (2 * pageSize s ≤ Z.of_nat cursor)%Z →
  ∀ card, card ∈ pageItems (OverlayContent s snapshot (Z.of_nat cursor)) →
    card.2 = false.
Proof.
  intros Hrow Hnd Hpast card Hcard.
  unfold OverlayContent in Hcard. cbn [pageItems] in Hcard.
  rewrite index_nat, row_pageItems in Hcard by done.
  rewrite row_pageSize in Hpast by done.
  apply list_elem_of_fmap in Hcard as (id & -> & Hid).
  apply list_elem_of_fmap in Hid as (y & -> & Hy).
  cbn [snd]. apply bool_decide_eq_false. intros Hactive.
  unfold RowSpec.window in Hy.
  eapply elem_of_sublist in Hy; [|apply sublist_take].
  eapply elem_of_sublist in Hy; [|apply sublist_drop].
  apply list_elem_of_lookup in Hy as [i Hi].
  assert (Hi' : i < 2 * RowSpec.pageSize (overlayRowLength s)).
  { apply lookup_lt_Some in Hi. unfold RowSpec.workingList in Hi.
    rewrite length_take in Hi. lia. }
  rewrite workingList_lookup in Hi by done.
  symmetry in Hactive.
  pose proof (NoDup_lookup _ _ _ _ Hnd Hactive Hi). lia.
Qed.

Lemma active_card_hidden_witness :
  Forall (λ card, card.2 = false)
    (pageItems
       (OverlayContent defaults
          ["a"; "b"; "c"; "d"; "e"; "f"; "g"; "h"; "i"; "j"; "k"]%string
          (Z.of_nat 10))).
Proof.
  apply Forall_forall.
  apply (active_card_hidden defaults
           ["a"; "b"; "c"; "d"; "e"; "f"; "g"; "h"; "i"; "j"; "k"]%string 10).
  - reflexivity.
  - apply (bool_decide_unpack _). vm_compute. exact I.
  - vm_compute. discriminate.
Defined.

(** ** Navigation during a gesture *)

Lemma navigations_app (t1 t2 : list Effect) :
  navigations (t1 ++ t2) = navigations t1 ++ navigations t2.
Proof. unfold navigations. apply omap_app. Qed.

Lemma stepCycle_navigations (h : Host) (d : Direction) (st : State) :
  navigations (trace (stepCycle h d st))
  = navigations (trace st)
    ++ (if step_moves st && instantSwitch (store h)
        then match Js.index (cycleSnapshot st) (cycleIndex (stepCycle h d st)) with
             | Some target =>
                 if Js.falsy (Some target) || negb (hasChannel h target)
                 then [] else [target]
             | None => []
             end
        else []).
Proof.
  destruct (step_moves st) eqn:Hmoves;
    [|by rewrite stepCycle_idle, app_nil_r].
  rewrite stepCycle_index, Hmoves. cbn [andb].
  unfold step_moves in Hmoves. apply andb_true_iff in Hmoves as [Hact Hlen].
  apply bool_decide_eq_true in Hlen.
  unfold stepCycle. rewrite Hact. cbn [negb orb].
  rewrite bool_decide_false by lia.
  rewrite decide_False by lia. cbv zeta.
  change (cycleSnapshot (set_index ?i st)) with (cycleSnapshot st).
  change (cycleIndex (set_index ?i st)) with i.
  destruct (Js.index (cycleSnapshot st) _) as [target|];
    [|by destruct (instantSwitch (store h)); rewrite app_nil_r].
  destruct (Js.falsy (Some target) || negb (hasChannel h target));
    [by destruct (instantSwitch (store h)); rewrite app_nil_r|].
  unfold renderOverlay, showCycleToast.
  destruct (instantSwitch (store h)), (visualStyle (store h));
    cbn [negb isCyclingSessionActive emit set_index];
    rewrite ?Hact; cbn [negb];
    repeat case_match;
    cbn [trace emit set_overlay set_toast set_index];
    rewrite ?navigations_app; cbn [navigations omap list_omap];
    by rewrite ?app_nil_r.
Qed.

Lemma unmountOverlay_navigations (st : State) :
  navigations (trace (unmountOverlay st)) = navigations (trace st).
Proof.
  unfold unmountOverlay. destruct (overlayMounted st); cbn [negb]; [|done].
  cbn [trace set_overlay emit]. by rewrite navigations_app, app_nil_r.
Qed.

Lemma endCycleSession_navigations (h : Host) (st : State) :
  isCyclingSessionActive st = true →
  navigations (trace (endCycleSession h st))
  = navigations (trace st)
    ++ (if instantSwitch (store h) then []
        else match selected st with Some sel => [sel] | None => [] end).
Proof.
  intros Hact. unfold endCycleSession, selected. rewrite Hact.
  cbn [negb]. cbv zeta.
  change (cycleIndex (set_flags false false st)) with (cycleIndex st).
  change (cycleSnapshot (set_flags false false st)) with (cycleSnapshot st).
  set (body := if decide _ then _ else _).
  assert (Hbody :
    navigations (trace body)
    = navigations (trace st)
      ++ (if instantSwitch (store h) then []
          else match selected st with Some sel => [sel] | None => [] end)).
  { subst body. unfold selected.
    destruct (Js.index (cycleSnapshot st) (cycleIndex st)) as [sel|] eqn:Hsel.
    - apply index_Some in Hsel as Hrange. rewrite decide_True by done.
      destruct (Js.falsy (Some sel));
        [by destruct (instantSwitch (store h)); rewrite app_nil_r|].
      unfold pushChannelToFront. cbv zeta.
      cbn [trace emit set_mru]. rewrite !navigations_app.
      cbn [navigations omap list_omap]. rewrite !app_nil_r.
      destruct (instantSwitch (store h)); cbn [negb trace emit set_flags];
        [by rewrite app_nil_r|].
      by rewrite navigations_app.
    - apply index_None in Hsel as Hrange. rewrite decide_False by done.
      by destruct (instantSwitch (store h)); rewrite app_nil_r. }
  fold (selected st). unfold selected in Hbody. fold (selected st) in Hbody.
  clearbody body.
  destruct (visualStyle (store h));
    rewrite ?unmountOverlay_navigations; exact Hbody.
Qed.

Lemma step_all_frame (steps : list (Host * Direction)) (st : State) :
  isCyclingSessionActive (step_all steps st) = isCyclingSessionActive st
  ∧ cycleSnapshot (step_all steps st) = cycleSnapshot st
  ∧ mruDmChannelIds (step_all steps st) = mruDmChannelIds st.
Proof.
  revert st. induction steps as [|[h d] steps IH]; intros st; [done|].
  destruct (stepCycle_frame h d st) as (Hm & Ha & _ & Hs & _).
  destruct (IH (stepCycle h d st)) as (Ha' & Hs' & Hm').
  change (step_all ((h, d) :: steps) st)
    with (step_all steps (stepCycle h d st)).
  by rewrite Ha', Hs', Hm', Ha, Hs, Hm.
Qed.

(** X18. With [instantSwitch] off, a gesture navigates once, at its
    end: from an idle session, no step of the gesture calls
    [transitionToChannel], and [endCycleSession] calls it exactly once,
    with the entry under the cursor, when there is one, and not at all
    otherwise. *)
Theorem navigate_on_release (hb he : Host)
    (steps : list (Host * Direction)) (st : State) :
  isCyclingSessionActive st = false →
  Forall (λ hd, instantSwitch (store hd.1) = false) steps →
  instantSwitch (store he) = false →
  let before_end := step_all steps (beginCycleSession hb st) in
  navigations (trace before_end) = navigations (trace st)
  ∧ navigations (trace (endCycleSession he before_end))
    = navigations (trace st)
      ++ match selected before_end with Some sel => [sel] | None => [] end.
Proof.
  intros Hidle Hsteps Hrelease. cbv zeta.
  destruct (beginCycleSession_idle hb st Hidle) as (Hact & _ & _ & _ & Htr & _).
  assert (Hnav : ∀ s, navigations (trace (step_all steps s))
                      = navigations (trace s)).
  { induction Hsteps as [|[h d] steps Hoff _ IH]; intros s; [done|].
    change (step_all ((h, d) :: steps) s)
      with (step_all steps (stepCycle h d s)).
    rewrite IH, stepCycle_navigations. simpl in Hoff. rewrite Hoff.
    by rewrite andb_false_r, app_nil_r. }
  rewrite Hnav, Htr. split; [done|].
  rewrite endCycleSession_navigations, Hrelease, Hnav, Htr; [done|].
  by rewrite (proj1 (step_all_frame steps _)).
Qed.

Lemma navigate_on_release_witness :
  let h := all_dms (Some "A"%string) on_release in
  let st := with_history ["B"; "C"]%string in
  let before_end :=
    step_all [(h, Forward); (h, Forward)] (beginCycleSession h st) in
  navigations (trace before_end) = navigations (trace st)
  ∧ navigations (trace (endCycleSession h before_end))
    = navigations (trace st)
      ++ match selected before_end with Some sel => [sel] | None => [] end.
Proof.
  apply (navigate_on_release
           (all_dms (Some "A"%string) on_release)
           (all_dms (Some "A"%string) on_release)
           [(all_dms (Some "A"%string) on_release, Forward);
            (all_dms (Some "A"%string) on_release, Forward)]
           (with_history ["B"; "C"]%string));
    [reflexivity | repeat constructor | reflexivity].
Defined.



(** ** The single commit of a gesture, with [instantSwitch] on *)






Example single_commit_sample :
  let hb := all_dms (Some "A"%string) defaults in
  promotions
    (trace (run (gesture hb [(hb, SigStep Forward); (hb, SigStep Forward)] hb)
              (with_history ["B"; "C"]%string)))
  = ["C"%string].
Proof. vm_compute. reflexivity. Qed.

(** With [instantSwitch] off the picture differs: [endCycleSession]
    lifts the suppression and then navigates, so the CHANNEL_SELECT of
    that navigation, which arrives after the end, promotes the same
    identifier a second time. *)
Example release_navigation_promotes_again :
  let h := all_dms (Some "A"%string) on_release in
  let st := with_history ["B"; "C"]%string in
  let two_steps := [(h, SigStep Forward); (h, SigStep Forward)] in
  navigations (trace (run (gesture h two_steps h) st)) = ["C"%string]
  ∧ promotions
      (trace (run (gesture h two_steps h
                   ++ [(h, SigChannelSelect (Some "C"%string))]) st))
    = ["C"; "C"]%string
  ∧ mruDmChannelIds
      (run (gesture h two_steps h
            ++ [(h, SigChannelSelect (Some "C"%string))]) st)
    = ["C"; "B"]%string.
Proof. vm_compute. split_and!; reflexivity. Qed.

(** ** A full turn of the snapshot *)

(** X20. The history list starts with the selected conversation, has no
    duplicate, is within the bound and holds only conversations
    [sanitizeHistory] accepts.  A gesture from an idle session that
    steps forward as many times as the list has entries comes back to
    the anchor, and ending it leaves the history list as it was. *)
Theorem full_turn_restores (hb he : Host) (hs : list Host)
    (c : string) (rest : list string) (st : State) :
  isCyclingSessionActive st = false →
  mruDmChannelIds st = c :: rest →
  NoDup (c :: rest) →
  length (c :: rest) ≤ MAX_HISTORY →
  Forall (keeps hb) (c :: rest) →
  getChannelId hb = Some c →
  length hs = length (c :: rest) →
  let before_end :=
    step_all ((λ h, (h, Forward)) <$> hs) (beginCycleSession hb st) in
  cycleIndex before_end = 0%Z
  ∧ selected before_end = Some c
  ∧ mruDmChannelIds (endCycleSession he before_end) = mruDmChannelIds st.
Proof.
  intros Hidle Hmru Hnd Hlen Hk Hcur Hhs. cbv zeta.
  set (s0 := beginCycleSession hb st).
  assert (Hsnap0 : cycleSnapshot s0 = c :: rest).
  { subst s0. rewrite beginCycleSession_snapshot by done.
    rewrite Hcur, Hmru.
    inversion Hk as [|? ? (_ & _ & Hdm) _]; subst. rewrite Hdm.
    by apply sanitizeHistory_anchor_in_front. }
  destruct (beginCycleSession_idle hb st Hidle)
    as (Hact0 & _ & Hidx0 & Hmru0 & _ & _).
  fold s0 in Hact0, Hidx0, Hmru0.
  set (s1 := step_all ((λ h, (h, Forward)) <$> hs) s0).
  destruct (step_all_frame ((λ h, (h, Forward)) <$> hs) s0)
    as (Hact1 & Hsnap1 & Hm1).
  fold s1 in Hact1, Hsnap1, Hm1.
  assert (Hidx1 : cycleIndex s1 = 0%Z).
  { subst s1. destruct rest as [|p rest].
    - rewrite step_all_idle; [done|]. unfold step_moves.
      rewrite Hsnap0. apply andb_false_intro2.
      apply bool_decide_eq_false. simpl. lia.
    - rewrite forward_steps; rewrite ?Hsnap0, ?Hidx0; try done;
        try (simpl; lia).
      rewrite Hhs, Z.add_0_l. apply Z_mod_same_full. }
  assert (Hc : c ≠ EmptyString).
  { inversion Hk as [|? ? (Hne & _) _]; subst. done. }
  assert (Hsel : selected s1 = Some c).
  { unfold selected. rewrite Hsnap1, Hsnap0, Hidx1.
    change (Js.index (c :: rest) 0) with (Some c). cbn [Js.falsy].
    by rewrite bool_decide_false. }
  split_and!; [done|done|].
  rewrite Hact0 in Hact1.
  destruct (endCycleSession_active he s1 Hact1) as (_ & _ & _ & _ & Hm & _).
  rewrite Hm, Hsel, Hm1, Hmru0, Hmru.
  apply NoDup_cons in Hnd as [Hnotin _].
  apply promoted_fixed; [by apply not_elem_all_ne|].
  rewrite length_cons in Hlen. lia.
Qed.

Lemma full_turn_restores_witness :
  let h := all_dms (Some "A"%string) defaults in
  let st := with_history ["A"; "B"; "C"]%string in
  let before_end :=
    step_all ((λ h, (h, Forward)) <$> [h; h; h]) (beginCycleSession h st) in
  cycleIndex before_end = 0%Z
  ∧ selected before_end = Some "A"%string
  ∧ mruDmChannelIds (endCycleSession h before_end) = mruDmChannelIds st.
Proof.
  apply (full_turn_restores
           (all_dms (Some "A"%string) defaults)
           (all_dms (Some "A"%string) defaults)
           [all_dms (Some "A"%string) defaults;
            all_dms (Some "A"%string) defaults;
            all_dms (Some "A"%string) defaults]
           "A"%string ["B"; "C"]%string
           (with_history ["A"; "B"; "C"]%string));
    try reflexivity.
  - apply (bool_decide_unpack _). vm_compute. exact I.
  - vm_compute. lia.
  - repeat constructor; discriminate.
Defined.

(** ** Persistence of the history list *)

Lemma saves_app (t1 t2 : list Effect) :
  saves (t1 ++ t2) = saves t1 ++ saves t2.
Proof. unfold saves. apply omap_app. Qed.

Lemma persist_step_ok (st st' : State) :
  persist_step st st' → persisted_ok st → persisted_ok st'.
Proof.
  unfold persisted_ok. intros [[Hm Hs] | Hs]; rewrite Hs; [by rewrite Hm|].
  by rewrite last_snoc.
Qed.

Lemma persist_step_refl (st : State) : persist_step st st.
Proof. by left. Qed.

Lemma persist_step_quiet (st st' st'' : State) :
  mruDmChannelIds st' = mruDmChannelIds st →
  saves (trace st') = saves (trace st) →
  persist_step st' st'' → persist_step st st''.
Proof. unfold persist_step. by intros <- <-. Qed.

Lemma pushChannelToFront_persist (c : string) (st : State) :
  persist_step st (pushChannelToFront c st).
Proof.
  right. unfold pushChannelToFront. cbv zeta.
  cbn [trace emit set_mru mruDmChannelIds].
  rewrite !saves_app. cbn [saves omap list_omap]. by rewrite !app_nil_r.
Qed.

Lemma stepCycle_saves (h : Host) (d : Direction) (st : State) :
  saves (trace (stepCycle h d st)) = saves (trace st).
Proof.
  unfold stepCycle. unfold_updates.
  split_tests; rewrite ?saves_app, ?app_nil_r; auto.
Qed.

Lemma unmountOverlay_saves (st : State) :
  saves (trace (unmountOverlay st)) = saves (trace st).
Proof.
  unfold unmountOverlay. destruct (overlayMounted st); cbn [negb]; [|done].
  cbn [trace set_overlay emit]. by rewrite saves_app, app_nil_r.
Qed.

Lemma endCycleSession_persist (h : Host) (st : State) :
  persist_step st (endCycleSession h st).
Proof.
  destruct (isCyclingSessionActive st) eqn:Hact;
    [|rewrite endCycleSession_idle by done; apply persist_step_refl].
  destruct (endCycleSession_active h st Hact) as (_ & _ & _ & _ & Hm & _).
  assert (Hsaves :
    saves (trace (endCycleSession h st))
    = saves (trace st)
      ++ match selected st with
         | Some sel => [promoted sel (mruDmChannelIds st)]
         | None => []
         end).
  { unfold endCycleSession, selected. rewrite Hact.
    cbn [negb]. cbv zeta.
    change (cycleIndex (set_flags false false st)) with (cycleIndex st).
    change (cycleSnapshot (set_flags false false st)) with (cycleSnapshot st).
    set (body := if decide _ then _ else _).
    assert (Hbody :
      saves (trace body)
      = saves (trace st)
        ++ match Js.index (cycleSnapshot st) (cycleIndex st) with
           | Some sel =>
               if Js.falsy (Some sel) then []
               else [promoted sel (mruDmChannelIds st)]
           | None => []
           end).
    { subst body.
      destruct (Js.index (cycleSnapshot st) (cycleIndex st))
        as [sel|] eqn:Hsel.
      - apply index_Some in Hsel as Hrange. rewrite decide_True by done.
        destruct (Js.falsy (Some sel)); [by rewrite app_nil_r|].
        unfold pushChannelToFront. cbv zeta.
        cbn [trace emit set_mru mruDmChannelIds]. rewrite !saves_app.
        cbn [saves omap list_omap]. rewrite !app_nil_r.
        destruct (instantSwitch (store h));
          cbn [negb trace emit set_flags mruDmChannelIds]; [done|].
        by rewrite saves_app, app_nil_r.
      - apply index_None in Hsel as Hrange. rewrite decide_False by done.
        by rewrite app_nil_r. }
    clearbody body.
    assert (Hsame :
      match Js.index (cycleSnapshot st) (cycleIndex st) with
      | Some sel =>
          if Js.falsy (Some sel) then []
          else [promoted sel (mruDmChannelIds st)]
      | None => []
      end
      = match
          match Js.index (cycleSnapshot st) (cycleIndex st) with
          | Some sel => if Js.falsy (Some sel) then None else Some sel
          | None => None
          end
        with
        | Some sel => [promoted sel (mruDmChannelIds st)]
        | None => []
        end).
    { destruct (Js.index (cycleSnapshot st) (cycleIndex st)) as [sel|];
        [|done]. by destruct (Js.falsy (Some sel)). }
    rewrite <- Hsame, <- Hbody.
    destruct (visualStyle (store h)); rewrite ?unmountOverlay_saves; done. }
  destruct (selected st) as [sel|].
  - right. by rewrite Hsaves, Hm.
  - left. by rewrite Hsaves, Hm, app_nil_r.
Qed.

Lemma beginCycleSession_quiet (h : Host) (st : State) :
  mruDmChannelIds (beginCycleSession h st) = mruDmChannelIds st
  ∧ saves (trace (beginCycleSession h st)) = saves (trace st).
Proof.
  destruct (isCyclingSessionActive st) eqn:Hact.
  - by rewrite beginCycleSession_active.
  - by destruct (beginCycleSession_idle h st Hact)
      as (_ & _ & _ & -> & -> & _).
Qed.

Lemma stepCycle_quiet (h : Host) (d : Direction) (st : State) :
  persist_step st (stepCycle h d st).
Proof.
  left. split; [|apply stepCycle_saves].
  by destruct (stepCycle_frame h d st) as (-> & _).
Qed.

Lemma handle_persist (h : Host) (sig : Signal) (st : State) :
  not_start sig → persist_step st (handle h sig st).
Proof.
  intros Hsig. destruct sig as [|d| |e|e|c|g|saved| |]; cbn [handle];
    try done.
  - left. apply beginCycleSession_quiet.
  - apply stepCycle_quiet.
  - apply endCycleSession_persist.
  - unfold onKeyDown.
    destruct (negb (ctrlKey e || IS_MAC h && metaKey e));
      [apply persist_step_refl|].
    case_bool_decide; [|apply persist_step_refl].
    destruct (negb (isCyclingSessionActive st)); [|apply stepCycle_quiet].
    destruct (beginCycleSession_quiet h st) as [Hm Hs].
    eapply persist_step_quiet; [exact Hm|exact Hs|apply stepCycle_quiet].
  - unfold onKeyUp.
    destruct (_ || _); [|apply persist_step_refl].
    destruct (negb (ctrlKey e || metaKey e)); [|apply persist_step_refl].
    apply endCycleSession_persist.
  - unfold CHANNEL_SELECT.
    destruct (suppressMruWhileCycling st); [apply persist_step_refl|].
    destruct c as [c|]; [|apply persist_step_refl].
    destruct (Js.falsy (Some c)); [apply persist_step_refl|].
    destruct (negb (isDirectMessageChannel h (Some c)));
      [apply persist_step_refl|apply pushChannelToFront_persist].
  - left. unfold GUILD_SELECT.
    destruct (negb (isCyclingSessionActive st)); [done|].
    destruct (Js.falsy g); [done|].
    destruct (Js.index (cycleSnapshot st) (cycleIndex st)) as [t|]; [|done].
    destruct (Js.falsy (Some t)); [done|].
    cbn [trace emit mruDmChannelIds]. by rewrite saves_app, app_nil_r.
  - left. destruct (stop_session h st) as (_ & _ & _ & Hm & _).
    split; [done|]. unfold stop.
    destruct (visualStyle (store h)); rewrite ?unmountOverlay_saves; done.
  - right. unfold clearMru.
    cbn [trace emit set_index set_snapshot set_mru mruDmChannelIds].
    rewrite !saves_app. cbn [saves omap list_omap]. by rewrite !app_nil_r.
Qed.

(** X21. Every change of the history list made after the plugin's
    start is written to the store: along any sequence of signals other
    than [start], from the initial state or from any state in which the
    last list written is the current history list, the last list
    written by [DataStore.set] is the current history list. *)
Theorem history_persisted :
  (∀ sigs, Forall (λ hs, not_start hs.2) sigs →
     persisted_ok (run sigs initial))
  ∧ (∀ h sig st, not_start sig → persisted_ok st →
       persisted_ok (handle h sig st)).
Proof.
  assert (Hone : ∀ h sig st, not_start sig → persisted_ok st →
                   persisted_ok (handle h sig st)).
  { intros h sig st Hsig. apply persist_step_ok. by apply handle_persist. }
  split; [|exact Hone].
  assert (Hrun : ∀ sigs st, Forall (λ hs, not_start hs.2) sigs →
                   persisted_ok st → persisted_ok (run sigs st)).
  { intros sigs st Hsigs. revert st.
    induction Hsigs as [|[h sig] sigs Hsig _ IH]; intros st Hok; [done|].
    apply IH. by apply Hone. }
  intros sigs Hsigs. by apply Hrun.
Qed.

Lemma history_persisted_witness :
  let h := all_dms (Some "A"%string) defaults in
  persisted_ok
    (run [(h, SigChannelSelect (Some "B"%string)); (h, SigBegin);
          (h, SigStep Forward); (h, SigEnd); (h, SigClear)] initial).
Proof.
  apply (proj1 history_persisted). repeat constructor.
Defined.

(** [start] itself may leave the store behind: when the saved list
    shrinks under [sanitizeHistory] and no direct conversation is
    selected, nothing is written back. *)
Example start_does_not_write_back :
  let st := start (all_dms None defaults) (Some ["B"; "B"]%string) initial in
  mruDmChannelIds st = ["B"%string] ∧ saves (trace st) = [].
Proof. vm_compute. split; reflexivity. Qed.
